(** * Gmail signature generation: template engine, profile normalizer,
      relevance filter and signature assembler

    A shallow embedding of the pure core of the signature generator
    ([src/data.py] and [check_user_for_relevance] of [src/sender.py])
    together with the properties its specification states about it.

    Python [str] values are modelled as [string] (a sequence of bytes; the
    operations used here, substring search and replacement, agree on the
    UTF-8 encoding of a text and on its code points).  Python dictionaries
    produced and consumed by the core are modelled as [gmap string py_value];
    the directory record, whose shape is fixed by the directory service, is a
    record with optional fields. *)

From Stdlib Require Import Strings.String Strings.Ascii ZArith Numbers.DecimalString.
From stdpp Require Import base option list gmap strings.

Local Open Scope string_scope.

(** Let [simpl] unfold the concatenation of a text that starts with a known
    character. *)
#[local] Arguments String.append !s1 s2 : simpl nomatch.

(** * Part I: the model *)

(** ** Python strings *)

Module PyStr.

(** [s[n:]] *)
Fixpoint drop (n : nat) (s : string) : string :=
  match n, s with
  | S n', String _ s' => drop n' s'
  | _, _ => s
  end.

(** [s.startswith(p)] *)
Definition startswith (p s : string) : bool := String.prefix p s.

(** [s.find(p)]: offset of the first occurrence of [p] in [s]. *)
Fixpoint find (p s : string) : option nat :=
  if startswith p s then Some 0
  else match s with
       | EmptyString => None
       | String _ s' => S <$> find p s'
       end.

(** [p in s] *)
Definition contains (p s : string) : bool :=
  match find p s with Some _ => true | None => false end.

(** The scanning loop of [s.replace(old, new)] for a non-empty [old]:
    [skip] counts the characters of the occurrence just replaced that are
    still to be passed over, so that occurrences are taken left to right
    and never overlap. *)
Fixpoint replace_scan (old new : string) (skip : nat) (s : string) : string :=
  match s with
  | EmptyString => EmptyString
  | String c s' =>
      match skip with
      | S n => replace_scan old new n s'
      | O =>
          if startswith old s
          then new +:+ replace_scan old new (String.length old - 1) s'
          else String c (replace_scan old new 0 s')
      end
  end.

(** [s.replace("", new)] puts [new] before every character and at the end. *)
Fixpoint intersperse (new s : string) : string :=
  match s with
  | EmptyString => new
  | String c s' => new +:+ String c (intersperse new s')
  end.

(** [s.replace(old, new)] *)
Definition replace (old new s : string) : string :=
  match old with
  | EmptyString => intersperse new s
  | String _ _ => replace_scan old new 0 s
  end.

(** [sep.join(parts)] *)
Fixpoint join (sep : string) (parts : list string) : string :=
  match parts with
  | [] => EmptyString
  | [a] => a
  | a :: rest => a +:+ sep +:+ join sep rest
  end.

(** Concatenation of a list of strings. *)
Fixpoint cat (parts : list string) : string :=
  match parts with
  | [] => EmptyString
  | a :: rest => a +:+ cat rest
  end.

(** [c in s] for a single character. *)
Fixpoint has_char (c : ascii) (s : string) : bool :=
  match s with
  | EmptyString => false
  | String d s' => if Ascii.eqb c d then true else has_char c s'
  end.

End PyStr.

#[local] Arguments PyStr.startswith : simpl never.

(** ** Python values stored in a profile *)

Inductive py_value : Type :=
  | PyNone
  | PyBool (b : bool)
  | PyInt (z : Z)
  | PyStr (s : string).

(** Truth value of an object, as tested by [if x:]. *)
Definition py_truthy (v : py_value) : bool :=
  match v with
  | PyNone => false
  | PyBool b => b
  | PyInt z => negb (Z.eqb z 0)
  | PyStr s => negb (String.eqb s "")
  end.

(** [x is True] *)
Definition py_is_True (v : py_value) : bool :=
  match v with
  | PyBool true => true
  | _ => false
  end.

(** [str(x)] *)
Definition py_str (v : py_value) : string :=
  match v with
  | PyNone => "None"
  | PyBool true => "True"
  | PyBool false => "False"
  | PyInt z => NilZero.string_of_int (Z.to_int z)
  | PyStr s => s
  end.

(** [d.get(k)] returns [None] for a missing key, [d.get(k, dflt)] returns
    [dflt]. *)
Definition dict_get (d : gmap string py_value) (k : string) : py_value :=
  default PyNone (d !! k).

Definition dict_get_or (d : gmap string py_value) (k : string) (dflt : py_value) : py_value :=
  default dflt (d !! k).

(** ** The template engine ([src/data.py]) *)

Definition COMPANY_NAME : string := "Kaiser X Labs".
Definition COMPANY_WEBSITE : string := "http://www.kaiser-x.com/".

Definition NORMAL_REPLACEMENT : string := "normal".
Definition CUSTOM_PARAGRAPH_WITH_VARIABLE : string := "customParagraphWithVariable".
Definition CUSTOM_PARAGRAPH_WITHOUT_VARIABLE : string := "customParagraphWithoutVariable".

(** The three markers of a keyword: [{keyword}], [{keyword/}], [{/keyword}]. *)
Definition var_marker (keyword : string) : string := "{" +:+ keyword +:+ "}".
Definition open_marker (keyword : string) : string := "{" +:+ keyword +:+ "/}".
Definition close_marker (keyword : string) : string := "{/" +:+ keyword +:+ "}".

Definition remove_tags (text keyword : string) : string :=
  let text := PyStr.replace (open_marker keyword) "" text in
  let text := PyStr.replace (close_marker keyword) "" text in
  text.

(** The characters that the regular-expression syntax of [re] gives a
    meaning of their own. *)
Definition regex_special (c : ascii) : bool :=
  PyStr.has_char c ".^$*+?{}[]\|()".

(** A keyword without such characters stands for itself inside a pattern. *)
Fixpoint regex_literal (keyword : string) : bool :=
  match keyword with
  | EmptyString => true
  | String c k => negb (regex_special c) && regex_literal k
  end.

(** [re.sub(p, "", text)] for the pattern [opn.*?cls] compiled with
    [re.DOTALL], where [opn] and [cls] are literal texts: at each position,
    left to right, the pattern matches when [opn] starts there and [cls]
    occurs somewhere after it; the lazy [.*?] stops at the first such
    occurrence, the match is deleted and scanning resumes behind it.  A
    position where the pattern does not match is copied. *)
Fixpoint sub_blocks (opn cls : string) (skip : nat) (s : string) : string :=
  match s with
  | EmptyString => EmptyString
  | String c s' =>
      match skip with
      | S n => sub_blocks opn cls n s'
      | O =>
          if PyStr.startswith opn s then
            match PyStr.find cls (PyStr.drop (String.length opn) s) with
            | Some j => sub_blocks opn cls (String.length opn + j + String.length cls - 1) s'
            | None => String c (sub_blocks opn cls 0 s')
            end
          else String c (sub_blocks opn cls 0 s')
      end
  end.

(** [remove_everything_between_tags].  The source splices [keyword] into the
    pattern [{keyword/}.*?{/keyword}] without escaping it.  For a keyword
    that is [regex_literal] (every keyword the assembler uses is) the two
    markers are literal texts: a brace is a repetition operator only when
    digits and a closing brace follow it, and here a slash always comes
    first.  This definition is the behaviour of the source for such
    keywords; statements about an arbitrary keyword assume
    [regex_literal].  [remove_everything_between_tags_outcome] below
    compiles the pattern for every keyword and is shown to agree with this
    definition on the keywords that stand for themselves. *)
Definition remove_everything_between_tags (text keyword : string) : string :=
  sub_blocks (open_marker keyword) (close_marker keyword) 0 text.

Definition replace_template_variable
    (text keyword operator : string) (data : gmap string py_value) : string :=
  if String.eqb operator NORMAL_REPLACEMENT then
    PyStr.replace (var_marker keyword) (py_str (dict_get_or data keyword (PyStr ""))) text
  else if String.eqb operator CUSTOM_PARAGRAPH_WITH_VARIABLE then
    if py_truthy (dict_get data keyword) then
      let text := remove_tags text keyword in
      PyStr.replace (var_marker keyword) (py_str (dict_get data keyword)) text
    else remove_everything_between_tags text keyword
  else if String.eqb operator CUSTOM_PARAGRAPH_WITHOUT_VARIABLE then
    if py_is_True (dict_get data keyword) then remove_tags text keyword
    else remove_everything_between_tags text keyword
  else text.

(** ** The assembler ([build_signature]) *)

(** The assembler.  The list of replacements is built as the source builds
    it: the common entries, extended by the entries of regular users unless
    the profile's [technicalUser] entry is truthy. *)
Definition common_replacements : list (string * string) :=
  [ ("lastName", NORMAL_REPLACEMENT);
    ("address", NORMAL_REPLACEMENT);
    ("phone", CUSTOM_PARAGRAPH_WITH_VARIABLE);
    ("email", NORMAL_REPLACEMENT) ].

Definition additional_replacements : list (string * string) :=
  [ ("firstName", NORMAL_REPLACEMENT);
    ("jobtitle", NORMAL_REPLACEMENT);
    ("managementRole", CUSTOM_PARAGRAPH_WITH_VARIABLE);
    ("pronouns", CUSTOM_PARAGRAPH_WITH_VARIABLE);
    ("gernePerDu", CUSTOM_PARAGRAPH_WITHOUT_VARIABLE);
    ("conditionalLineBreak", CUSTOM_PARAGRAPH_WITHOUT_VARIABLE);
    ("mobile", CUSTOM_PARAGRAPH_WITH_VARIABLE) ].

Definition replacements_for (employee_data : gmap string py_value) : list (string * string) :=
  if py_truthy (dict_get employee_data "technicalUser")
  then common_replacements
  else common_replacements ++ additional_replacements.

(** The loop [for keyword, operator in replacements]. *)
Definition apply_replacements
    (replacements : list (string * string)) (employee_data : gmap string py_value)
    (html_template : string) : string :=
  fold_left
    (fun html_template '(keyword, operator) =>
       replace_template_variable html_template keyword operator employee_data)
    replacements html_template.

Definition build_signature (html_template : string) (employee_data : gmap string py_value) : string :=
  let replacements := replacements_for employee_data in
  let html_template := apply_replacements replacements employee_data html_template in
  let html_template := PyStr.replace "{company}" COMPANY_NAME html_template in
  let html_template := PyStr.replace "{web}" COMPANY_WEBSITE html_template in
  html_template.

(** ** The directory record

    The record a directory service returns for one user.  Every field may be
    missing; a field that is present has the type the service documents. *)

Record name_entry := {
  givenName : option string;
  familyName : option string }.

Record phone_entry := {
  phone_type : option string;
  phone_value : option string }.

Record address_entry := {
  address_type : option string;
  address_formatted : option string }.

Record organization_entry := {
  org_title : option string;
  org_department : option string }.

Record personal_information := {
  Pronouns : option string;
  GernePerDu : option string }.

Record contractual_information := {
  Management_Role : option string }.

Record custom_schemas := {
  Personal_Information : option personal_information;
  Contractual_Information : option contractual_information }.

Record directory_user := {
  orgUnitPath : option string;
  primaryEmail : option string;
  suspended : option bool;
  archived : option bool;
  name : option name_entry;
  phones : option (list phone_entry);
  addresses : option (list address_entry);
  organizations : option (list organization_entry);
  customSchemas : option custom_schemas }.

(** [entry.get(field, "")] *)
Definition get_str (field : option string) : string := default "" field.

(** [entry.get("type") == tag]: a missing type compares unequal. *)
Definition type_is (tag : string) (type : option string) : bool :=
  match type with
  | Some t => String.eqb t tag
  | None => false
  end.

(** ** The profile normalizer ([process_user_data]) *)

(** One iteration of the loop over the phone entries; the state is the pair
    of the variables [phone] and [mobile]. *)
Definition phone_step (acc : string * string) (phone_entry : phone_entry) : string * string :=
  let '(phone, mobile) := acc in
  if type_is "work" (phone_type phone_entry) then (get_str (phone_value phone_entry), mobile)
  else if type_is "mobile" (phone_type phone_entry) then (phone, get_str (phone_value phone_entry))
  else (phone, mobile).

(** One iteration of the loop over the address entries. *)
Definition address_step (address : string) (address_entry : address_entry) : string :=
  if type_is "work" (address_type address_entry) then get_str (address_formatted address_entry)
  else address.

(** The empty dictionaries [{}] that stand in for a missing nested object. *)
Definition no_name : name_entry := {| givenName := None; familyName := None |}.
Definition no_personal_information : personal_information :=
  {| Pronouns := None; GernePerDu := None |}.
Definition no_contractual_information : contractual_information :=
  {| Management_Role := None |}.
Definition no_custom_schemas : custom_schemas :=
  {| Personal_Information := None; Contractual_Information := None |}.

Definition process_user_data (data : directory_user) : gmap string py_value :=
  let technical_user := bool_decide (orgUnitPath data = Some "/Orga Accounts") in
  let email := get_str (primaryEmail data) in
  let first_name := get_str (givenName (default no_name (name data))) in
  let last_name := get_str (familyName (default no_name (name data))) in
  let phone_candidates := default [] (phones data) in
  let '(phone, mobile) := fold_left phone_step phone_candidates ("", "") in
  let address_candidates := default [] (addresses data) in
  let address := fold_left address_step address_candidates "" in
  if technical_user then
    <["technicalUser" := PyBool true]>
    (<["email" := PyStr email]>
    (<["lastName" := PyStr last_name]>
    (<["address" := PyStr address]>
    (<["phone" := PyStr phone]> ∅))))
  else
    let organizations := default [] (organizations data) in
    let '(jobtitle, department) :=
      match organizations with
      | [] => ("", "")
      | o :: _ => (get_str (org_title o), get_str (org_department o))
      end in
    let custom_schemas := default no_custom_schemas (customSchemas data) in
    let personal_information :=
      default no_personal_information (Personal_Information custom_schemas) in
    let contractual_information :=
      default no_contractual_information (Contractual_Information custom_schemas) in
    let pronouns := get_str (Pronouns personal_information) in
    let gerne_per_du := String.eqb (get_str (GernePerDu personal_information)) "yes" in
    let conditional_line_break := negb (String.eqb pronouns "" && Bool.eqb gerne_per_du false) in
    let management_role := get_str (Management_Role contractual_information) in
    <["technicalUser" := PyBool false]>
    (<["email" := PyStr email]>
    (<["firstName" := PyStr first_name]>
    (<["lastName" := PyStr last_name]>
    (<["jobtitle" := PyStr jobtitle]>
    (<["address" := PyStr address]>
    (<["department" := PyStr department]>
    (<["phone" := PyStr phone]>
    (<["mobile" := PyStr mobile]>
    (<["pronouns" := PyStr pronouns]>
    (<["gernePerDu" := PyBool gerne_per_du]>
    (<["conditionalLineBreak" := PyBool conditional_line_break]>
    (<["managementRole" := PyStr management_role]> ∅)))))))))))).

(** ** The relevance filter ([check_user_for_relevance] of [src/sender.py]) *)

(** [re.compile(lit + ".*").match(s)]: [match] anchors the pattern at the
    start of [s] and [.*] also matches the empty text, so the pattern matches
    exactly when [s] starts with [lit]. *)
Definition re_match_then_any (lit s : string) : bool := PyStr.startswith lit s.

Definition check_user_for_relevance (user : directory_user) : bool :=
  let org_unit_path := get_str (orgUnitPath user) in
  let primary_email := get_str (primaryEmail user) in
  negb (default false (suspended user)) &&
  negb (default false (archived user)) &&
  negb (re_match_then_any "/Deactivated" org_unit_path) &&
  negb (re_match_then_any "/Cloud Identities" org_unit_path) &&
  negb (String.eqb org_unit_path "/Xternal/No drive") &&
  negb (String.eqb org_unit_path "/") &&
  negb (PyStr.contains "external" primary_email) &&
  negb (String.eqb primary_email "kaiser.soze@kaiser-x.com") &&
  negb (String.eqb primary_email "google_tech@kaiser-x.com").

(** ** Notions used in the statements and proofs *)

(** *** Scanning *)

(** No occurrence of [p] starts inside [x] when [x] is followed by [z]. *)
Fixpoint quiet (p x z : string) : bool :=
  match x with
  | EmptyString => true
  | String c x' => negb (PyStr.startswith p (String c x' +:+ z)) && quiet p x' z
  end.

(** *** The concrete scenarios of the specification *)

Definition scenario_template : string :=
  "Hi {firstName}, {phone/}Call me: {phone}{/phone}".

Definition scenario_profile (phone : string) : gmap string py_value :=
  <["firstName" := PyStr "Ana"]> (<["phone" := PyStr phone]> ∅).

Definition scenario_render (phone : string) : string :=
  let data := scenario_profile phone in
  let text := replace_template_variable scenario_template "phone" CUSTOM_PARAGRAPH_WITH_VARIABLE data in
  replace_template_variable text "firstName" NORMAL_REPLACEMENT data.

(** *** Profiles *)

(** The reserved organizational-unit path of technical accounts. *)
Definition TECHNICAL_PATH : string := "/Orga Accounts".

(** The value of the last entry of [entries] that carries the tag, and the
    empty text when no entry carries it. *)
Definition last_tagged {A : Type} (type_of value_of : A → option string)
    (tag : string) (entries : list A) : string :=
  match last (List.filter (λ e, type_is tag (type_of e)) entries) with
  | Some e => get_str (value_of e)
  | None => ""
  end.

(** The value of the first entry of [entries] that carries the tag, as the
    specification words the selection. *)
Definition first_tagged {A : Type} (type_of value_of : A → option string)
    (tag : string) (entries : list A) : string :=
  match head (List.filter (λ e, type_is tag (type_of e)) entries) with
  | Some e => get_str (value_of e)
  | None => ""
  end.

(** The keys of the two shapes of a profile. *)
Definition technical_keys : gset string :=
  {[ "technicalUser"; "email"; "lastName"; "address"; "phone" ]}.

Definition regular_only_keys : gset string :=
  {[ "firstName"; "jobtitle"; "department"; "mobile"; "pronouns"; "gernePerDu";
     "conditionalLineBreak"; "managementRole" ]}.

(** A record with two work addresses and two work phones. *)
Definition two_offices : directory_user :=
  {| orgUnitPath := Some "/Staff";
     primaryEmail := Some "ana@kaiser-x.com";
     suspended := None; archived := None;
     name := Some {| givenName := Some "Ana"; familyName := Some "Lee" |};
     phones := Some [ {| phone_type := Some "work"; phone_value := Some "111" |};
                      {| phone_type := Some "work"; phone_value := Some "222" |} ];
     addresses := Some [ {| address_type := Some "work"; address_formatted := Some "First Street 1" |};
                         {| address_type := Some "work"; address_formatted := Some "Second Street 2" |} ];
     organizations := None;
     customSchemas := None |}.

(** A record of a regular user who asks for the informal address. *)
Definition informal_user : directory_user :=
  {| orgUnitPath := Some "/Staff";
     primaryEmail := Some "ana@kaiser-x.com";
     suspended := None; archived := None;
     name := None; phones := None; addresses := None; organizations := None;
     customSchemas :=
       Some {| Personal_Information := Some {| Pronouns := None; GernePerDu := Some "yes" |};
               Contractual_Information := None |} |}.

(** *** Modes and passes *)

(** The rendering modes as the specification names them, and the operator
    text the source uses for each. *)
Inductive mode : Type :=
  | Substitute
  | ConditionalBlockWithValue
  | ConditionalBlockOnly.

Definition operator_of (m : mode) : string :=
  match m with
  | Substitute => NORMAL_REPLACEMENT
  | ConditionalBlockWithValue => CUSTOM_PARAGRAPH_WITH_VARIABLE
  | ConditionalBlockOnly => CUSTOM_PARAGRAPH_WITHOUT_VARIABLE
  end.

(** One pass of the engine in a mode. *)
Definition render (text keyword : string) (m : mode) (profile : gmap string py_value) : string :=
  replace_template_variable text keyword (operator_of m) profile.

(** The passes over the fields common to both shapes of a profile, and the
    passes over the fields of regular users, in the order in which the
    specification lists them. *)
Definition common_passes (profile : gmap string py_value) (text : string) : string :=
  let text := render text "lastName" Substitute profile in
  let text := render text "address" Substitute profile in
  let text := render text "phone" ConditionalBlockWithValue profile in
  let text := render text "email" Substitute profile in
  text.

Definition regular_passes (profile : gmap string py_value) (text : string) : string :=
  let text := render text "firstName" Substitute profile in
  let text := render text "jobtitle" Substitute profile in
  let text := render text "managementRole" ConditionalBlockWithValue profile in
  let text := render text "pronouns" ConditionalBlockWithValue profile in
  let text := render text "gernePerDu" ConditionalBlockOnly profile in
  let text := render text "conditionalLineBreak" ConditionalBlockOnly profile in
  let text := render text "mobile" ConditionalBlockWithValue profile in
  text.

(** The substitution of the two global constants. *)
Definition global_passes (text : string) : string :=
  let text := PyStr.replace (var_marker "company") COMPANY_NAME text in
  let text := PyStr.replace (var_marker "web") COMPANY_WEBSITE text in
  text.

(** *** Markers *)

(** The text holds an opening marker of the keyword, and no closing marker
    behind the first one. *)
Definition unterminated (text keyword : string) : bool :=
  match PyStr.find (open_marker keyword) text with
  | Some i =>
      negb (PyStr.contains (close_marker keyword)
              (PyStr.drop (i + String.length (open_marker keyword)) text))
  | None => false
  end.

(** A keyword of the kind the field list holds: not empty, free of the
    characters that are special in a pattern, and free of the slash that
    tells the delimiters of a block from a variable. *)
Definition plain_keyword (keyword : string) : bool :=
  negb (String.eqb keyword "") && regex_literal keyword && negb (PyStr.has_char "/" keyword).

(** The text between the braces of a marker holds no brace. *)
Definition brace_free (s : string) : bool :=
  negb (PyStr.has_char "{" s) && negb (PyStr.has_char "}" s).

(** A marker with the given text between its braces. *)
Definition marker (body : string) : string := "{" +:+ body +:+ "}".

(** *** Regular expressions

    The deleting branch of the engine compiles a pattern in which the keyword
    stands unescaped.  This is the part of the pattern syntax of [re] that
    such patterns reach when the keyword holds ordinary characters, dots and
    the quantifiers [*], [+] and [?].  The dot takes one character, which is
    one element of a [string] here. *)

Module Re.

(** A pattern is a sequence of pieces, each a literal character or the dot,
    taken once or under a quantifier, greedy or lazy. *)
Inductive item : Type :=
  | Lit (c : ascii)
  | Any.

Inductive quantifier : Type :=
  | Once
  | Star
  | Plus
  | Opt.

Record piece := {
  what : item;
  how : quantifier;
  lazy : bool }.

(** How [re.compile] ends: with a compiled pattern, with [re.error] (its
    message and the position in the pattern), or on a pattern outside the
    part of the syntax modelled here. *)
Inductive compiled : Type :=
  | Compiled (pieces : list piece)
  | Error (msg : string) (pos : nat)
  | Unsupported.

Definition is_digit (c : ascii) : bool := PyStr.has_char c "0123456789".

Fixpoint skip_digits (s : string) : string :=
  match s with
  | EmptyString => EmptyString
  | String c s' => if is_digit c then skip_digits s' else s
  end.

(** What follows an opening brace makes it a counted repetition: digits, an
    optional comma and digits, and a closing brace; [{}] is no repetition.
    Otherwise the brace stands for itself. *)
Definition repeat_form (s : string) : bool :=
  negb (PyStr.startswith "}" s) &&
  let s := skip_digits s in
  let s := match s with
           | String "," s' => skip_digits s'
           | _ => s
           end in
  PyStr.startswith "}" s.

(** The characters that start a construct outside the part modelled. *)
Definition unsupported_char (c : ascii) : bool := PyStr.has_char c "\^$[]()|".

Definition is_quantifier (c : ascii) : bool := PyStr.has_char c "*+?".

(** A quantifier character read at position [pos] behind the pieces [done].
    After a piece taken once it quantifies that piece.  After a greedy
    quantifier, [?] makes it lazy, [*] is an error, and [+] makes it
    possessive from Python 3.11 on and is an error before, which is not
    modelled.  After a lazy quantifier every quantifier is an error. *)
Definition quantify (c : ascii) (pos : nat) (done : list piece) : compiled :=
  match reverse done with
  | [] => Error "nothing to repeat" pos
  | last :: before =>
      match how last with
      | Once =>
          let q := if Ascii.eqb c "*" then Star else if Ascii.eqb c "+" then Plus else Opt in
          Compiled (reverse before ++ [ {| what := what last; how := q; lazy := false |} ])
      | q =>
          if lazy last then Error "multiple repeat" pos
          else if Ascii.eqb c "?" then
            Compiled (reverse before ++ [ {| what := what last; how := q; lazy := true |} ])
          else if Ascii.eqb c "*" then Error "multiple repeat" pos
          else Unsupported
      end
  end.

(** The parser, reading the pattern from position [pos] on. *)
Fixpoint parse (pos : nat) (done : list piece) (s : string) : compiled :=
  match s with
  | EmptyString => Compiled done
  | String c s' =>
      if is_quantifier c then
        match quantify c pos done with
        | Compiled done => parse (S pos) done s'
        | failure => failure
        end
      else if Ascii.eqb c "{" then
        if repeat_form s' then Unsupported
        else parse (S pos) (done ++ [ {| what := Lit c; how := Once; lazy := false |} ]) s'
      else if Ascii.eqb c "." then
        parse (S pos) (done ++ [ {| what := Any; how := Once; lazy := false |} ]) s'
      else if unsupported_char c then Unsupported
      else parse (S pos) (done ++ [ {| what := Lit c; how := Once; lazy := false |} ]) s'
  end.

(** [re.compile(pattern, re.DOTALL)] *)
Definition compile (pattern : string) : compiled := parse 0 [] pattern.

(** With [re.DOTALL] the dot accepts every character. *)
Definition accepts (i : item) (c : ascii) : bool :=
  match i with
  | Lit d => bool_decide (d = c)
  | Any => true
  end.

(** The first of two alternatives that matches. *)
Definition or_else (first second : option nat) : option nat :=
  match first with
  | Some n => Some n
  | None => second
  end.

(** Repetition of an item zero or more times, followed by [next]: a greedy
    repetition first tries to take one more character, a lazy one first
    tries to go on with what follows. *)
Fixpoint repeat (i : item) (is_lazy : bool) (next : string → option nat) (s : string)
    : option nat :=
  let stop := next s in
  let more :=
    match s with
    | String c s' => if accepts i c then S <$> repeat i is_lazy next s' else None
    | EmptyString => None
    end in
  if is_lazy then or_else stop more else or_else more stop.

(** The backtracking matcher: the number of characters that the match of
    the pieces at the start of [s] takes, for the first way of matching in
    the order of preference. *)
Fixpoint match_here (pieces : list piece) (s : string) : option nat :=
  match pieces with
  | [] => Some 0
  | p :: pieces =>
      let one (next : string → option nat) : option nat :=
        match s with
        | String c s' => if accepts (what p) c then S <$> next s' else None
        | EmptyString => None
        end in
      match how p with
      | Once => one (match_here pieces)
      | Star => repeat (what p) (lazy p) (match_here pieces) s
      | Plus => one (repeat (what p) (lazy p) (match_here pieces))
      | Opt =>
          let stop := match_here pieces s in
          let more := one (match_here pieces) in
          if lazy p then or_else stop more else or_else more stop
      end
  end.

(** [re.sub(pattern, "", s)]: the matches are taken left to right and do
    not overlap; [skip] counts the characters of the current match still to
    be deleted.  An empty match deletes nothing. *)
Fixpoint sub (pieces : list piece) (skip : nat) (s : string) : string :=
  match s with
  | EmptyString => EmptyString
  | String c s' =>
      match skip with
      | S n => sub pieces n s'
      | O =>
          match match_here pieces s with
          | Some (S n) => sub pieces n s'
          | _ => String c (sub pieces 0 s')
          end
      end
  end.

(** The pieces of a text that stands for itself. *)
Fixpoint literal (s : string) : list piece :=
  match s with
  | EmptyString => []
  | String c s' => {| what := Lit c; how := Once; lazy := false |} :: literal s'
  end.

(** The pieces of [opn.*?cls] for two texts that stand for themselves. *)
Definition block_pieces (opn cls : string) : list piece :=
  literal opn ++ [ {| what := Any; how := Star; lazy := true |} ] ++ literal cls.

End Re.

(** *** The engine with its pattern compiled *)

(** How a call ends: it returns, it raises [re.error], or it compiles a
    pattern outside the part of the syntax modelled in [Re].  The source
    holds no [raise] of its own. *)
Inductive outcome (A : Type) : Type :=
  | Returned (value : A)
  | Raised_re_error (msg : string) (pos : nat)
  | Unmodelled.
Arguments Returned {A} value.
Arguments Raised_re_error {A} msg pos.
Arguments Unmodelled {A}.

(** The pattern of [remove_everything_between_tags]:
    [rf"{{{keyword}/}}.*?{{/{keyword}}}"]. *)
Definition block_pattern (keyword : string) : string :=
  "{" +:+ keyword +:+ "/}.*?{/" +:+ keyword +:+ "}".

(** [remove_everything_between_tags] for every keyword, as the source runs
    it: the pattern is compiled, which may fail, and every match is
    deleted. *)
Definition remove_everything_between_tags_outcome (text keyword : string) : outcome string :=
  match Re.compile (block_pattern keyword) with
  | Re.Compiled pattern => Returned (Re.sub pattern 0 text)
  | Re.Error msg pos => Raised_re_error msg pos
  | Re.Unsupported => Unmodelled
  end.

(** [replace_template_variable] for every keyword.  The pattern is compiled
    in the two deleting branches only. *)
Definition engine_outcome (text keyword operator : string) (data : gmap string py_value)
    : outcome string :=
  if String.eqb operator NORMAL_REPLACEMENT then
    Returned (PyStr.replace (var_marker keyword) (py_str (dict_get_or data keyword (PyStr ""))) text)
  else if String.eqb operator CUSTOM_PARAGRAPH_WITH_VARIABLE then
    if py_truthy (dict_get data keyword) then
      let text := remove_tags text keyword in
      Returned (PyStr.replace (var_marker keyword) (py_str (dict_get data keyword)) text)
    else remove_everything_between_tags_outcome text keyword
  else if String.eqb operator CUSTOM_PARAGRAPH_WITHOUT_VARIABLE then
    if py_is_True (dict_get data keyword) then Returned (remove_tags text keyword)
    else remove_everything_between_tags_outcome text keyword
  else Returned text.

(** The loop of [build_signature] over the engine; an exception of a pass
    ends the loop. *)
Fixpoint apply_replacements_outcome
    (replacements : list (string * string)) (employee_data : gmap string py_value)
    (html_template : string) : outcome string :=
  match replacements with
  | [] => Returned html_template
  | (keyword, operator) :: replacements =>
      match engine_outcome html_template keyword operator employee_data with
      | Returned html_template =>
          apply_replacements_outcome replacements employee_data html_template
      | failure => failure
      end
  end.

(** [build_signature] over the engine. *)
Definition assembler_outcome (html_template : string) (employee_data : gmap string py_value)
    : outcome string :=
  let replacements := replacements_for employee_data in
  match apply_replacements_outcome replacements employee_data html_template with
  | Returned html_template =>
      let html_template := PyStr.replace "{company}" COMPANY_NAME html_template in
      let html_template := PyStr.replace "{web}" COMPANY_WEBSITE html_template in
      Returned html_template
  | failure => failure
  end.

(** Whether a conditional operator keeps the blocks of the keyword. *)
Definition keeps_block (operator keyword : string) (data : gmap string py_value) : bool :=
  if String.eqb operator CUSTOM_PARAGRAPH_WITH_VARIABLE
  then py_truthy (dict_get data keyword)
  else py_is_True (dict_get data keyword).

(** *** Blocks and cuts *)

Definition gernePerDu_block : string :=
  "{gernePerDu/}Feel free to use first name{/gernePerDu}".

(** A text without opening marker of the keyword, followed by a block of the
    keyword whose inner text holds no closing marker. *)
Definition block_text (keyword : string) (b : string * string) : string :=
  b.1 +:+ open_marker keyword +:+ b.2 +:+ close_marker keyword.

Definition first_block (keyword : string) (b : string * string) : Prop :=
  PyStr.contains (open_marker keyword) b.1 = false
  ∧ PyStr.contains (close_marker keyword) b.2 = false.

(** The pieces of a cut hold no occurrence of the pattern. *)
Definition cut_at (pattern : string) (parts : list string) : Prop :=
  Forall (λ x, PyStr.contains pattern x = false) parts.

(** *** Well-formed templates *)

(** A template as its author structures it: literal text, variable markers
    and blocks, a block being an opening marker, a template and the closing
    marker of the same keyword. *)
Inductive template : Type :=
  | Done
  | Text (s : string) (rest : template)
  | Var (keyword : string) (rest : template)
  | Block (keyword : string) (body rest : template).

(** The text of a template. *)
Fixpoint render_template (t : template) : string :=
  match t with
  | Done => ""
  | Text s rest => s +:+ render_template rest
  | Var k rest => var_marker k +:+ render_template rest
  | Block k body rest =>
      open_marker k +:+ render_template body +:+ close_marker k +:+ render_template rest
  end.

(** One template after another. *)
Fixpoint tapp (t u : template) : template :=
  match t with
  | Done => u
  | Text s rest => Text s (tapp rest u)
  | Var k rest => Var k (tapp rest u)
  | Block k body rest => Block k body (tapp rest u)
  end.

(** The variable markers of [k] filled with [v]. *)
Fixpoint subst_var (k v : string) (t : template) : template :=
  match t with
  | Done => Done
  | Text s rest => Text s (subst_var k v rest)
  | Var k' rest =>
      if String.eqb k k' then Text v (subst_var k v rest) else Var k' (subst_var k v rest)
  | Block k' body rest => Block k' (subst_var k v body) (subst_var k v rest)
  end.

(** The blocks of [k] replaced by their bodies. *)
Fixpoint unwrap (k : string) (t : template) : template :=
  match t with
  | Done => Done
  | Text s rest => Text s (unwrap k rest)
  | Var k' rest => Var k' (unwrap k rest)
  | Block k' body rest =>
      if String.eqb k k' then tapp (unwrap k body) (unwrap k rest)
      else Block k' (unwrap k body) (unwrap k rest)
  end.

(** The blocks of [k] left out. *)
Fixpoint drop_block (k : string) (t : template) : template :=
  match t with
  | Done => Done
  | Text s rest => Text s (drop_block k rest)
  | Var k' rest => Var k' (drop_block k rest)
  | Block k' body rest =>
      if String.eqb k k' then drop_block k rest
      else Block k' (drop_block k body) (drop_block k rest)
  end.

(** The text of a template without the opening markers of [k]: what the
    first replacement of [remove_tags] leaves. *)
Fixpoint render_without_open (k : string) (t : template) : string :=
  match t with
  | Done => ""
  | Text s rest => s +:+ render_without_open k rest
  | Var k' rest => var_marker k' +:+ render_without_open k rest
  | Block k' body rest =>
      (if String.eqb k k' then "" else open_marker k') +:+ render_without_open k body
      +:+ close_marker k' +:+ render_without_open k rest
  end.

(** Literal text holds no opening brace and keywords are plain. *)
Fixpoint shape (t : template) : bool :=
  match t with
  | Done => true
  | Text s rest => negb (PyStr.has_char "{" s) && shape rest
  | Var k rest => plain_keyword k && shape rest
  | Block k body rest => plain_keyword k && shape body && shape rest
  end.

(** A block of [k] occurs somewhere in the template. *)
Fixpoint has_block (k : string) (t : template) : bool :=
  match t with
  | Done => false
  | Text _ rest | Var _ rest => has_block k rest
  | Block k' body rest => String.eqb k k' || has_block k body || has_block k rest
  end.

(** No block of [k] stands inside a block of [k]. *)
Fixpoint unnested (k : string) (t : template) : bool :=
  match t with
  | Done => true
  | Text _ rest | Var _ rest => unnested k rest
  | Block k' body rest =>
      (if String.eqb k k' then negb (has_block k body) else unnested k body)
      && unnested k rest
  end.

(** *** The assembler on a well-formed template *)

(** What a pass does to the markers of its keyword, once the profile has
    decided it: fill the variable markers; keep the blocks (removing their
    delimiters) and fill the variable markers if the mode has a value; or
    delete the blocks. *)
Inductive action : Type :=
  | Fill (v : string)
  | Keep (fill : option string)
  | Delete.

Definition action_of (m : mode) (keyword : string) (profile : gmap string py_value) : action :=
  match m with
  | Substitute => Fill (py_str (dict_get_or profile keyword (PyStr "")))
  | ConditionalBlockWithValue =>
      if py_truthy (dict_get profile keyword)
      then Keep (Some (py_str (dict_get profile keyword)))
      else Delete
  | ConditionalBlockOnly =>
      if py_is_True (dict_get profile keyword) then Keep None else Delete
  end.

(** A pass on the text. *)
Definition pass_text (k : string) (a : action) (text : string) : string :=
  match a with
  | Fill v => PyStr.replace (var_marker k) v text
  | Keep None => remove_tags text k
  | Keep (Some v) => PyStr.replace (var_marker k) v (remove_tags text k)
  | Delete => remove_everything_between_tags text k
  end.

(** The same pass on the template. *)
Definition act (k : string) (a : action) (t : template) : template :=
  match a with
  | Fill v => subst_var k v t
  | Keep None => unwrap k t
  | Keep (Some v) => subst_var k v (unwrap k t)
  | Delete => drop_block k t
  end.

Fixpoint run_text (passes : list (string * action)) (text : string) : string :=
  match passes with
  | [] => text
  | (k, a) :: passes => run_text passes (pass_text k a text)
  end.

Fixpoint run (passes : list (string * action)) (t : template) : template :=
  match passes with
  | [] => t
  | (k, a) :: passes => run passes (act k a t)
  end.

(** The field list of a profile with the modes of the specification, and
    the passes of the assembler for it: the fields, then the two global
    constants. *)
Definition field_list (profile : gmap string py_value) : list (string * mode) :=
  [ ("lastName", Substitute); ("address", Substitute);
    ("phone", ConditionalBlockWithValue); ("email", Substitute) ]
  ++ (if py_truthy (dict_get profile "technicalUser") then []
      else [ ("firstName", Substitute); ("jobtitle", Substitute);
             ("managementRole", ConditionalBlockWithValue);
             ("pronouns", ConditionalBlockWithValue);
             ("gernePerDu", ConditionalBlockOnly);
             ("conditionalLineBreak", ConditionalBlockOnly);
             ("mobile", ConditionalBlockWithValue) ]).

Definition passes_of (profile : gmap string py_value) : list (string * action) :=
  map (λ entry, (entry.1, action_of entry.2 entry.1 profile)) (field_list profile)
  ++ [ ("company", Fill COMPANY_NAME); ("web", Fill COMPANY_WEBSITE) ].

(** The first pass for a keyword. *)
Fixpoint action_for (k : string) (passes : list (string * action)) : option action :=
  match passes with
  | [] => None
  | (k', a) :: passes => if String.eqb k k' then Some a else action_for k passes
  end.

Definition mem (k : string) (enclosing : list string) : bool :=
  existsb (String.eqb k) enclosing.

(** A template that the passes resolve, [enclosing] being the keywords of
    the blocks around it:
    - literal text holds no opening brace;
    - a variable marker has a plain keyword whose first pass fills it with a
      text without opening brace, or deletes the blocks of the keyword while
      the marker stands inside such a block;
    - a block has a plain keyword whose first pass keeps or deletes blocks,
      it does not stand inside a block of the same keyword, and its body and
      the template behind it are resolved as well. *)
Fixpoint resolvable (passes : list (string * action)) (enclosing : list string)
    (t : template) : bool :=
  match t with
  | Done => true
  | Text s rest => negb (PyStr.has_char "{" s) && resolvable passes enclosing rest
  | Var k rest =>
      plain_keyword k
      && match action_for k passes with
         | Some (Fill v) | Some (Keep (Some v)) => negb (PyStr.has_char "{" v)
         | Some Delete => mem k enclosing
         | Some (Keep None) | None => false
         end
      && resolvable passes enclosing rest
  | Block k body rest =>
      plain_keyword k
      && negb (mem k enclosing)
      && match action_for k passes with
         | Some (Keep _) | Some Delete => true
         | Some (Fill _) | None => false
         end
      && resolvable passes (k :: enclosing) body
      && resolvable passes enclosing rest
  end.

(** A signature template in the style of the one the generator is run with,
    and the profile of a regular user without phone numbers. *)
Definition pieces (parts : list (template → template)) : template :=
  fold_right (λ part rest, part rest) Done parts.

Definition sample_template : template :=
  pieces
    [ Text "<p><b>"; Var "firstName"; Text " "; Var "lastName"; Text "</b>";
      Block "conditionalLineBreak"
        (pieces [ Text "<br>";
                  Block "pronouns" (pieces [ Text "("; Var "pronouns"; Text ")" ]);
                  Block "gernePerDu" (pieces [ Text " gerne per Du" ]) ]);
      Text "<br>"; Var "jobtitle";
      Block "managementRole" (pieces [ Text ", "; Var "managementRole" ]);
      Text "</p><p>";
      Block "phone" (pieces [ Text "T "; Var "phone"; Text "<br>" ]);
      Block "mobile" (pieces [ Text "M "; Var "mobile"; Text "<br>" ]);
      Var "email"; Text "<br>"; Var "address"; Text "</p><p>";
      Var "company"; Text " | "; Var "web"; Text "</p>" ].

Definition sample_profile : gmap string py_value := process_user_data informal_user.

(** ** Further notions: the engine and the assembler on arbitrary texts *)

(** No marker of the keyword occurs in the text. *)
Definition marker_free (keyword text : string) : bool :=
  negb (PyStr.contains (var_marker keyword) text)
  && negb (PyStr.contains (open_marker keyword) text)
  && negb (PyStr.contains (close_marker keyword) text).

(** The keywords for which the assembler runs a pass on a profile. *)
Definition active_keywords (profile : gmap string py_value) : list string :=
  (field_list profile).*1 ++ [ "company"; "web" ].

(** ** Further notions: directory records *)

(** The record with another list of organizations. *)
Definition with_organizations (data : directory_user)
    (orgs : option (list organization_entry)) : directory_user :=
  {| orgUnitPath := orgUnitPath data; primaryEmail := primaryEmail data;
     suspended := suspended data; archived := archived data; name := name data;
     phones := phones data; addresses := addresses data;
     organizations := orgs; customSchemas := customSchemas data |}.

(** The record without the phone entries that are tagged neither work nor
    mobile and without the address entries that are not tagged work. *)
Definition prune_contacts (data : directory_user) : directory_user :=
  {| orgUnitPath := orgUnitPath data; primaryEmail := primaryEmail data;
     suspended := suspended data; archived := archived data; name := name data;
     phones :=
       List.filter (λ e, type_is "work" (phone_type e) || type_is "mobile" (phone_type e))
         <$> phones data;
     addresses := List.filter (λ e, type_is "work" (address_type e)) <$> addresses data;
     organizations := organizations data; customSchemas := customSchemas data |}.

(** ** The sender ([src/sender.py]) *)

(** [remove_irrelevant_users]: the list comprehension over the users. *)
Definition remove_irrelevant_users (users : list directory_user) : list directory_user :=
  List.filter check_user_for_relevance users.

(** A message for the queue: [{"employee_id": ..., "signature": ...}].  The
    identifier is [employee.get("primaryEmail")], which is [None] for a record
    without primary email. *)
Record signature_message := {
  employee_id : option string;
  signature : string }.

(** One iteration of the loop of [main] over the relevant employees: the
    profile, the choice of the template by the profile's [technicalUser]
    entry, the signature, and the message appended to [messages]. *)
Definition message_step (html_template_user html_template_technical_user : string)
    (messages : list signature_message) (employee : directory_user)
    : list signature_message :=
  let employee_id := primaryEmail employee in
  let processed_user_data := process_user_data employee in
  let html_template :=
    if py_truthy (dict_get processed_user_data "technicalUser")
    then html_template_technical_user else html_template_user in
  let signature := build_signature html_template processed_user_data in
  (messages ++ [ {| employee_id := employee_id; signature := signature |} ])%list.

(** The part of [main] between the retrieval of the employees and the
    publication: filter, then build one message per relevant employee. *)
Definition main_messages (html_template_user html_template_technical_user : string)
    (employees : list directory_user) : list signature_message :=
  let relevant_employees := remove_irrelevant_users employees in
  fold_left (message_step html_template_user html_template_technical_user)
    relevant_employees [].

(** ** Exceptions and calls of external services *)

(** The classes of exceptions that the handlers of the source tell apart:
    [json.JSONDecodeError], [KeyError], [googleapiclient.errors.HttpError],
    [fastapi.HTTPException] with its status code, any other subclass of
    [Exception], and the exceptions outside [Exception] (such as
    [KeyboardInterrupt]) that only a bare [except:] catches.  An exception of
    a subclass counts for the class that the handlers see. *)
Inductive exception_class : Type :=
  | JSONDecodeError
  | KeyError
  | HttpError
  | HTTPException (status_code : nat)
  | OtherException
  | NotAnException.

(** An exception: its class and [str(e)] (for an [HTTPException], its
    detail). *)
Record py_exception := {
  exc_class : exception_class;
  exc_text : string }.

(** [isinstance(e, Exception)] *)
Definition is_Exception (e : py_exception) : bool :=
  match exc_class e with
  | NotAnException => false
  | _ => true
  end.

(** [isinstance(e, json.JSONDecodeError)] *)
Definition is_JSONDecodeError (e : py_exception) : bool :=
  match exc_class e with
  | JSONDecodeError => true
  | _ => false
  end.

(** [isinstance(e, KeyError)] *)
Definition is_KeyError (e : py_exception) : bool :=
  match exc_class e with
  | KeyError => true
  | _ => false
  end.

(** [isinstance(e, HttpError)] *)
Definition is_HttpError (e : py_exception) : bool :=
  match exc_class e with
  | HttpError => true
  | _ => false
  end.

(** How a call of an external service, or of a function that calls one,
    ends. *)
Inductive py_result (A : Type) : Type :=
  | Return (value : A)
  | Raise (e : py_exception).
Arguments Return {A} value.
Arguments Raise {A} e.

(** ** The directory listing ([get_all_employees] of [src/api.py]) *)

(** A page of the user list: [response.get("users")] and
    [response.get("nextPageToken")]. *)
Record users_page := {
  page_users : option (list directory_user);
  nextPageToken : option string }.

(** [service.users().list(..., pageToken=page_token, ...).execute()]: what the
    directory answers to a page token ([None] for the first request). *)
Definition directory_service : Type := option string → py_result users_page.

(** [not page_token] *)
Definition no_token (page_token : option string) : bool :=
  match page_token with
  | None => true
  | Some t => String.eqb t ""
  end.

(** The loop [while True:] with the variables [result] and [page_token];
    [fuel] bounds the number of requests, and [None] says that the bound was
    reached before the loop ended.  An exception of a request leaves the
    loop and the function. *)
Fixpoint get_all_employees_loop (fuel : nat) (service : directory_service)
    (page_token : option string) (result : list directory_user)
    : option (py_result (list directory_user)) :=
  match fuel with
  | O => None
  | S fuel =>
      match service page_token with
      | Raise e => Some (Raise e)
      | Return response =>
          let users := default [] (page_users response) in
          let result := (result ++ users)%list in
          let page_token := nextPageToken response in
          if no_token page_token then Some (Return result)
          else get_all_employees_loop fuel service page_token result
      end
  end.

Definition get_all_employees (fuel : nat) (service : directory_service)
    : option (py_result (list directory_user)) :=
  get_all_employees_loop fuel service None [].

(** The page that a directory of pages keyed by their tokens serves for a
    token. *)
Fixpoint page_for (t : string) (later : list (string * users_page)) : option users_page :=
  match later with
  | [] => None
  | (t', page) :: later => if String.eqb t t' then Some page else page_for t later
  end.

(** A directory that holds a first page and further pages, each of them
    served for its token; a token that it did not hand out is an error. *)
Definition paged_directory (first : users_page) (later : list (string * users_page))
    : directory_service :=
  λ page_token,
    match page_token with
    | None => Return first
    | Some t =>
        match page_for t later with
        | Some page => Return page
        | None => Raise {| exc_class := HttpError; exc_text := "Invalid page token" |}
        end
    end.

(** Each page names the token of the next one, and the last page names none
    (or the empty text). *)
Fixpoint chained (page : users_page) (later : list (string * users_page)) : Prop :=
  match later with
  | [] => no_token (nextPageToken page) = true
  | (t, next) :: later => nextPageToken page = Some t ∧ t ≠ "" ∧ chained next later
  end.

(** The users of all pages, in the order of the pages. *)
Definition all_users (first : users_page) (later : list (string * users_page))
    : list directory_user :=
  (default [] (page_users first) ++ concat (map (λ p, default [] (page_users p.2)) later))%list.

(** What the relevance filter asks of a record, read off its conjunction. *)
Definition relevant_record (user : directory_user) : Prop :=
  let org_unit_path := default "" (orgUnitPath user) in
  let primary_email := default "" (primaryEmail user) in
  default false (suspended user) = false ∧
  default false (archived user) = false ∧
  PyStr.startswith "/Deactivated" org_unit_path = false ∧
  PyStr.startswith "/Cloud Identities" org_unit_path = false ∧
  org_unit_path ≠ "/Xternal/No drive" ∧
  org_unit_path ≠ "/" ∧
  PyStr.contains "external" primary_email = false ∧
  primary_email ≠ "kaiser.soze@kaiser-x.com" ∧
  primary_email ≠ "google_tech@kaiser-x.com".

(** The message that [main] builds for an employee. *)
Definition message_for (html_template_user html_template_technical_user : string)
    (employee : directory_user) : signature_message :=
  {| employee_id := primaryEmail employee;
     signature :=
       build_signature
         (if bool_decide (orgUnitPath employee = Some TECHNICAL_PATH)
          then html_template_technical_user else html_template_user)
         (process_user_data employee) |}.

(** A directory that answers every request with the same page and the token
    "next". *)
Definition endless_directory : directory_service :=
  λ _, Return {| page_users := Some []; nextPageToken := Some "next" |}.

(** Three pages: the third is served with an empty token. *)
Definition three_pages : list (string * users_page) :=
  [ ("p2", {| page_users := Some [informal_user]; nextPageToken := Some "p3" |});
    ("p3", {| page_users := None; nextPageToken := Some "" |}) ].

Definition first_page : users_page :=
  {| page_users := Some [two_offices]; nextPageToken := Some "p2" |}.

(** Every request of the listing but the last is answered with a page and a
    token for the next request; [last] is the answer to the last request. *)
Fixpoint answers (service : directory_service) (page_token : option string)
    (pages : list users_page) (last : py_result users_page) : Prop :=
  match pages with
  | [] => service page_token = last
  | page :: pages =>
      service page_token = Return page ∧
      no_token (nextPageToken page) = false ∧
      answers service (nextPageToken page) pages last
  end.

(** A directory whose second page fails. *)
Definition failing_directory : directory_service :=
  λ page_token,
    match page_token with
    | None => Return first_page
    | Some _ => Raise {| exc_class := HttpError; exc_text := "Quota exceeded" |}
    end.

(** ** The external services of the receiver *)

(** [credentials.token] is all that the code reads of the credentials. *)
Record credentials := { token : string }.

(** An entry of the file list of the drive, or the answer to the creation
    of a file: [file.get("id")]. *)
Record drive_file := { file_id : option string }.

(** The requests that [src/api.py] sends: the retrieval of credentials from
    the secret store and the identity provider, the [PUT] of the Gmail
    settings, and the three requests to the drive. *)
Inductive request : Type :=
  | access_credentials (user_email : string) (scopes : list string)
      (project_id secret_name : string)
  | gmail_put (url bearer sendAsEmail signature : string)
  | files_list (q driveId : string) (creds : credentials)
  | files_create (name driveId parent signature : string) (creds : credentials)
  | files_update (fileId signature : string) (creds : credentials).

(** What a request returns when it does not raise; for the listing, this is
    [results.get("files")]. *)
Definition answer (r : request) : Type :=
  match r with
  | access_credentials _ _ _ _ => credentials
  | gmail_put _ _ _ _ => unit
  | files_list _ _ _ => option (list drive_file)
  | files_create _ _ _ _ _ => drive_file
  | files_update _ _ _ => unit
  end.

(** The world outside: how a request ends, given the requests sent before. *)
Definition services : Type := list request → ∀ r : request, py_result (answer r).

(** A computation that sends requests: from the requests sent so far to its
    end and the requests sent then. *)
Definition io (A : Type) : Type := list request → py_result A * list request.

Definition io_ret {A} (value : A) : io A := λ h, (Return value, h).

Definition io_raise {A} (e : py_exception) : io A := λ h, (Raise e, h).

Definition io_bind {A B} (m : io A) (k : A → io B) : io B :=
  λ h,
    match m h with
    | (Return value, h) => k value h
    | (Raise e, h) => (Raise e, h)
    end.

(** [try: body except ...:], the handler being [None] for an exception that
    no clause catches. *)
Definition try_except {A} (body : io A) (handler : py_exception → option (io A)) : io A :=
  λ h,
    match body h with
    | (Return value, h) => (Return value, h)
    | (Raise e, h) =>
        match handler e with
        | Some handle => handle h
        | None => (Raise e, h)
        end
    end.

(** [try: body except Exception as e: logger.error(...); raise] *)
Definition logged {A} (body : io A) : io A :=
  try_except body (λ e, if is_Exception e then Some (io_raise e) else None).

Definition call (world : services) (r : request) : io (answer r) :=
  λ h, (world h r, (h ++ [r])%list).

Declare Scope io_scope.
Delimit Scope io_scope with io.
Notation "x ← y ; z" := (io_bind y (λ x, z))
  (at level 20, y at level 100, z at level 200, only parsing) : io_scope.

(** [not existing_file_id] is false for a text that is not empty. *)
Definition is_file_id (existing_file_id : option string) : bool :=
  match existing_file_id with
  | None => false
  | Some i => negb (String.eqb i "")
  end.

Module api.

Section Api.

Variable world : services.

Local Open Scope io_scope.

Definition get_credentials (user_email : string) (scopes : list string)
    (project_id secret_name : string) : io credentials :=
  logged (call world (access_credentials user_email scopes project_id secret_name)).

Definition check_if_file_exists_in_drive (file_name drive_id folder_id : string)
    (creds : credentials) : io (option string) :=
  logged (
    let query :=
      "name='" +:+ file_name +:+ "' and trashed=false and mimeType='text/html' and '"
        +:+ folder_id +:+ "' in parents" in
    results ← call world (files_list query drive_id creds);
    let files := default [] results in
    match files with
    | [] => io_ret None
    | [file] => io_ret (file_id file)
    | _ =>
        io_raise {| exc_class := OtherException;
                    exc_text := "There are duplicate files existing already" |}
    end).

Definition create_file_in_drive (file_name drive_id folder_id signature : string)
    (creds : credentials) : io (option string) :=
  try_except
    (file ← call world (files_create file_name drive_id folder_id signature creds);
     io_ret (file_id file))
    (λ e,
       if is_HttpError e then Some (io_raise e)
       else if is_Exception e then Some (io_ret None)
       else None).

Definition update_file_in_drive (file_id signature : string) (creds : credentials)
    : io unit :=
  logged (call world (files_update file_id signature creds)).

Definition update_gmail_signature (employee_id signature token : string) : io unit :=
  logged (
    let url :=
      "https://gmail.googleapis.com/gmail/v1/users/" +:+ employee_id
        +:+ "/settings/sendAs/" +:+ employee_id in
    call world (gmail_put url ("Bearer " +:+ token) employee_id signature)).

End Api.

End api.

Module receiver.

(** [SignatureMessage]: both fields are required texts. *)
Record SignatureMessage := {
  employee_id : string;
  signature : string }.

(** The answer of the endpoint. *)
Record SignatureResponse := {
  status : string;
  response_employee_id : string }.

Definition SCOPES_PERSONAL : list string :=
  [ "https://www.googleapis.com/auth/gmail.settings.basic";
    "https://www.googleapis.com/auth/drive.file" ].

Section Receiver.

(** The settings that the module reads from its environment. *)
Variables SHARED_DRIVE_ID SHARED_DRIVE_FOLDER_ID PROJECT_ID SECRET_NAME : string.

Variable world : services.

Local Open Scope io_scope.

Definition write_signature_to_drive (employee_id signature : string)
    (creds : credentials) : io (option string) :=
  logged (
    let filename := employee_id +:+ ".html" in
    existing_file_id ←
      api.check_if_file_exists_in_drive world filename SHARED_DRIVE_ID
        SHARED_DRIVE_FOLDER_ID creds;
    if negb (is_file_id existing_file_id) then
      file_id ←
        api.create_file_in_drive world filename SHARED_DRIVE_ID
          SHARED_DRIVE_FOLDER_ID signature creds;
      io_ret file_id
    else
      _ ← api.update_file_in_drive world (default "" existing_file_id) signature creds;
      io_ret existing_file_id).

Definition update_signature (employee_id signature : string) : io bool :=
  logged (
    personal_credentials ←
      api.get_credentials world employee_id SCOPES_PERSONAL PROJECT_ID SECRET_NAME;
    _ ← api.update_gmail_signature world employee_id signature
          (token personal_credentials);
    _ ← try_except
          (_ ← write_signature_to_drive employee_id signature personal_credentials;
           io_ret ())
          (λ _, Some (io_ret ()));
    io_ret true).

(** The endpoint.  [decode] stands for the three steps that read the
    message: the base64 decoding, [json.loads] and the validation by
    [SignatureMessage]. *)
Definition receive_pubsub_message (decode : string → py_result SignatureMessage)
    (message_data : string) : io SignatureResponse :=
  try_except
    (signature_message ← (λ h, (decode message_data, h));
     _ ← update_signature (employee_id signature_message) (signature signature_message);
     io_ret {| status := "success";
               response_employee_id := employee_id signature_message |})
    (λ e,
       if is_JSONDecodeError e then
         Some (io_raise {| exc_class := HTTPException 400;
                           exc_text := "Invalid JSON in message" |})
       else if is_KeyError e then
         Some (io_raise {| exc_class := HTTPException 400;
                           exc_text := "Missing required field: " +:+ exc_text e |})
       else if is_Exception e then
         Some (io_raise {| exc_class := HTTPException 500;
                           exc_text := "Error processing message: " +:+ exc_text e |})
       else None).

End Receiver.

End receiver.

(** A world in which the credentials and the Gmail settings are served and
    every request to the drive fails. *)
Definition drive_down : services :=
  λ _ r,
    match r as r' return py_result (answer r') with
    | access_credentials _ _ _ _ => Return {| token := "t0" |}
    | gmail_put _ _ _ _ => Return ()
    | files_list _ _ _ | files_create _ _ _ _ _ | files_update _ _ _ =>
        Raise {| exc_class := NotAnException; exc_text := "SystemExit" |}
    end.

(** A world in which the secret that holds the service account key is not
    JSON. *)
Definition broken_secret : services :=
  λ _ r,
    match r as r' return py_result (answer r') with
    | access_credentials _ _ _ _ =>
        Raise {| exc_class := JSONDecodeError; exc_text := "Expecting value" |}
    | gmail_put _ _ _ _ => Return ()
    | files_list _ _ _ => Return None
    | files_create _ _ _ _ _ => Return {| file_id := None |}
    | files_update _ _ _ => Return ()
    end.

(** A message that decodes to a signature for one employee. *)
Definition decoded (data : string) : py_result receiver.SignatureMessage :=
  Return {| receiver.employee_id := "ana@kaiser-x.com"; receiver.signature := data |}.

(** * Part II: lemmas *)

(** ** Facts about the string operations *)

Section StringFacts.

Implicit Types (a b c p q r s t : string).

Lemma app_nil_r s : s +:+ "" = s.
Proof. induction s as [|x s IH]; simpl; [done | by rewrite IH]. Qed.

Lemma app_nil_l s : "" +:+ s = s.
Proof. reflexivity. Qed.

Lemma app_assoc a b c : (a +:+ b) +:+ c = a +:+ (b +:+ c).
Proof. induction a as [|x a IH]; simpl; [done | by rewrite IH]. Qed.

Lemma length_app a b : String.length (a +:+ b) = String.length a + String.length b.
Proof. induction a as [|x a IH]; simpl; [done | by rewrite IH]. Qed.

Lemma drop_app a b : PyStr.drop (String.length a) (a +:+ b) = b.
Proof. induction a as [|x a IH]; simpl; [by destruct b | done]. Qed.

Lemma drop_0 s : PyStr.drop 0 s = s.
Proof. by destruct s. Qed.

Lemma drop_add n a b : PyStr.drop (String.length a + n) (a +:+ b) = PyStr.drop n b.
Proof. induction a as [|x a IH]; simpl; [done | apply IH]. Qed.

Lemma startswith_nil s : PyStr.startswith "" s = true.
Proof. by destruct s. Qed.

Lemma startswith_cons x p y s :
  PyStr.startswith (String x p) (String y s) = bool_decide (x = y) && PyStr.startswith p s.
Proof.
  unfold PyStr.startswith; simpl.
  destruct (ascii_dec x y) as [->|Hne].
  - by rewrite bool_decide_eq_true_2.
  - by rewrite bool_decide_eq_false_2.
Qed.

Lemma startswith_app p s : PyStr.startswith p (p +:+ s) = true.
Proof.
  induction p as [|x p IH]; simpl; [apply startswith_nil |].
  rewrite startswith_cons, IH. by rewrite bool_decide_eq_true_2.
Qed.

Lemma startswith_spec p s : PyStr.startswith p s = true ↔ ∃ r, s = p +:+ r.
Proof.
  split.
  - revert s. induction p as [|x p IH]; intros s H; [by exists s |].
    destruct s as [|y s]; [done |].
    rewrite startswith_cons in H. apply andb_prop in H as [Hx Hp].
    apply bool_decide_eq_true_1 in Hx as ->.
    destruct (IH _ Hp) as [r ->]. by exists r.
  - intros [r ->]. apply startswith_app.
Qed.

Lemma startswith_refl s : PyStr.startswith s s = true.
Proof. apply startswith_spec. exists "". by rewrite app_nil_r. Qed.

(** Two ways of cutting the same text. *)
Lemma app_eq_app a r p q :
  a +:+ r = p +:+ q →
  (∃ m, a = p +:+ m ∧ q = m +:+ r) ∨ (∃ m, p = a +:+ m ∧ r = m +:+ q).
Proof.
  revert p. induction a as [|x a IH]; intros p H; simpl in H.
  - right. by exists p.
  - destruct p as [|y p]; simpl in H.
    + left. by exists (String x a).
    + injection H as -> H. destruct (IH _ H) as [[m [-> ->]]|[m [-> ->]]].
      * left. by exists m.
      * right. by exists m.
Qed.

Lemma has_char_app x a b :
  PyStr.has_char x (a +:+ b) = PyStr.has_char x a || PyStr.has_char x b.
Proof. induction a as [|y a IH]; simpl; [done |]. by destruct (Ascii.eqb x y). Qed.

Lemma has_char_head x s : PyStr.has_char x (String x s) = true.
Proof. simpl. by rewrite Ascii.eqb_refl. Qed.

(** A character absent from both prefixes marks the same cut. *)
Lemma cut_at_char x a b s t :
  PyStr.has_char x a = false → PyStr.has_char x b = false →
  a +:+ String x s = b +:+ String x t → a = b ∧ s = t.
Proof.
  revert b. induction a as [|y a IH]; intros [|z b] Ha Hb H; simpl in *.
  - by injection H as ->.
  - injection H as <- _. by rewrite Ascii.eqb_refl in Hb.
  - injection H as -> _. by rewrite Ascii.eqb_refl in Ha.
  - injection H as -> H.
    destruct (Ascii.eqb x z); [done |].
    destruct (IH _ Ha Hb H) as [-> ->]. done.
Qed.

Lemma find_here p s : PyStr.startswith p s = true → PyStr.find p s = Some 0.
Proof. intros H. destruct s; simpl; by rewrite H. Qed.

Lemma find_cons p x s :
  PyStr.startswith p (String x s) = false →
  PyStr.find p (String x s) = S <$> PyStr.find p s.
Proof. intros H. simpl. by rewrite H. Qed.

Lemma contains_cons p x s :
  PyStr.contains p (String x s) = PyStr.startswith p (String x s) || PyStr.contains p s.
Proof.
  unfold PyStr.contains. simpl.
  destruct (PyStr.startswith p (String x s)); [done |].
  by destruct (PyStr.find p s).
Qed.

Lemma contains_nil p : PyStr.contains p "" = PyStr.startswith p "".
Proof. unfold PyStr.contains. simpl. by destruct (PyStr.startswith p ""). Qed.

Lemma contains_spec p s : PyStr.contains p s = true ↔ ∃ a b, s = a +:+ p +:+ b.
Proof.
  split.
  - induction s as [|x s IH]; intros H.
    + rewrite contains_nil in H. apply startswith_spec in H as [r Hr].
      exists "", r. done.
    + rewrite contains_cons in H. apply orb_prop in H as [H|H].
      * apply startswith_spec in H as [r Hr]. by exists "", r.
      * destruct (IH H) as (a & b & ->). by exists (String x a), b.
  - intros (a & b & ->). induction a as [|x a IH]; simpl.
    + destruct (p +:+ b) as [|y u] eqn:E.
      * rewrite contains_nil, <- E. apply startswith_app.
      * rewrite contains_cons, <- E, startswith_app. done.
    + rewrite contains_cons, IH. apply orb_true_r.
Qed.

Lemma contains_false_app_l p a b : PyStr.contains p (a +:+ b) = false → PyStr.contains p a = false.
Proof.
  intros H. destruct (PyStr.contains p a) eqn:E; [|done].
  apply contains_spec in E as (u & v & ->).
  rewrite <- H. symmetry. apply contains_spec. exists u, (v +:+ b).
  by rewrite !app_assoc.
Qed.

Lemma contains_false_app_r p a b : PyStr.contains p (a +:+ b) = false → PyStr.contains p b = false.
Proof.
  intros H. destruct (PyStr.contains p b) eqn:E; [|done].
  apply contains_spec in E as (u & v & ->).
  rewrite <- H. symmetry. apply contains_spec. exists (a +:+ u), v.
  by rewrite !app_assoc.
Qed.

Lemma contains_false_drop p n s : PyStr.contains p s = false → PyStr.contains p (PyStr.drop n s) = false.
Proof.
  revert s. induction n as [|n IH]; intros s H; [by rewrite drop_0 |].
  destruct s as [|x s]; [done |]. simpl. apply IH.
  rewrite contains_cons in H. by apply orb_false_elim in H as [_ H].
Qed.

Lemma find_none_contains p s : PyStr.find p s = None ↔ PyStr.contains p s = false.
Proof. unfold PyStr.contains. by destruct (PyStr.find p s). Qed.

End StringFacts.

(** ** Scanning a text for a pattern *)

Section Scanning.

Implicit Types (a b p q r s t x y z opn cls new : string).

Lemma quiet_app p x y z :
  quiet p x (y +:+ z) = true → quiet p y z = true → quiet p (x +:+ y) z = true.
Proof.
  intros Hx Hy. induction x as [|c x IH]; simpl in *; [done |].
  apply andb_prop in Hx as [H1 H2].
  rewrite app_assoc. change (String c x +:+ y +:+ z) with (String c (x +:+ y +:+ z)) in H1.
  rewrite H1. simpl. by apply IH.
Qed.

(** A text that lacks the first character of [p] is quiet. *)
Lemma quiet_no_head h p' x z :
  PyStr.has_char h x = false → quiet (String h p') x z = true.
Proof.
  induction x as [|c x IH]; simpl; [done |]. intros H.
  destruct (Ascii.eqb h c) eqn:E; [done |].
  rewrite startswith_cons, bool_decide_eq_false_2.
  - simpl. by apply IH.
  - intros ->. by rewrite Ascii.eqb_refl in E.
Qed.

(** A text without occurrence of [p] is quiet before the end of the text
    and before the first character of [p], when that character occurs in
    [p] only once: no occurrence can straddle the end of [x]. *)
Lemma quiet_clean h p' x z :
  PyStr.has_char h p' = false →
  PyStr.contains (String h p') x = false →
  z = "" ∨ (∃ z', z = String h z') →
  quiet (String h p') x z = true.
Proof.
  intros Hp Hx Hz. induction x as [|c x IH]; [done |].
  rewrite contains_cons in Hx. apply orb_false_elim in Hx as [Hs Hx].
  simpl. rewrite (IH Hx), andb_true_r.
  apply negb_true_iff. destruct (PyStr.startswith _ (String c (x +:+ z))) eqn:E; [|done].
  exfalso. apply startswith_spec in E as [q E].
  change (String c (x +:+ z)) with (String c x +:+ z) in E.
  apply app_eq_app in E as [(m & E1 & _)|(m & E1 & E2)].
  - rewrite E1, startswith_app in Hs. done.
  - simpl in E1. injection E1 as -> ->.
    destruct m as [|d m].
    + rewrite app_nil_r, startswith_refl in Hs. done.
    + destruct Hz as [->|[z' ->]]; [done |].
      simpl in E2. injection E2 as <- _.
      by rewrite has_char_app, has_char_head, orb_true_r in Hp.
Qed.

Lemma replace_scan_skip old new n s :
  PyStr.replace_scan old new n s = PyStr.replace_scan old new 0 (PyStr.drop n s).
Proof.
  revert s. induction n as [|n IH]; intros s; [by rewrite drop_0 |].
  destruct s as [|c s]; [done |]. simpl. apply IH.
Qed.

Lemma replace_scan_quiet old new x z :
  quiet old x z = true →
  PyStr.replace_scan old new 0 (x +:+ z) = x +:+ PyStr.replace_scan old new 0 z.
Proof.
  induction x as [|c x IH]; [done |]. simpl. intros H.
  apply andb_prop in H as [H1 H2]. apply negb_true_iff in H1.
  rewrite H1. by rewrite IH.
Qed.

Lemma replace_scan_hit h old' new z :
  PyStr.replace_scan (String h old') new 0 (String h old' +:+ z)
  = new +:+ PyStr.replace_scan (String h old') new 0 z.
Proof.
  change (String h old' +:+ z) with (String h (old' +:+ z)).
  cbn [PyStr.replace_scan].
  change (String h (old' +:+ z)) with (String h old' +:+ z).
  rewrite startswith_app. f_equal.
  rewrite replace_scan_skip. simpl. by rewrite Nat.sub_0_r, drop_app.
Qed.

Lemma replace_scan_none old new s :
  quiet old s "" = true → PyStr.replace_scan old new 0 s = s.
Proof.
  intros H. rewrite <- (app_nil_r s) at 1. rewrite replace_scan_quiet by done.
  simpl. apply app_nil_r.
Qed.

Lemma sub_blocks_skip opn cls n s :
  sub_blocks opn cls n s = sub_blocks opn cls 0 (PyStr.drop n s).
Proof.
  revert s. induction n as [|n IH]; intros s; [by rewrite drop_0 |].
  destruct s as [|c s]; [done |]. simpl. apply IH.
Qed.

Lemma sub_blocks_quiet opn cls x z :
  quiet opn x z = true →
  sub_blocks opn cls 0 (x +:+ z) = x +:+ sub_blocks opn cls 0 z.
Proof.
  induction x as [|c x IH]; [done |]. simpl. intros H.
  apply andb_prop in H as [H1 H2]. apply negb_true_iff in H1.
  rewrite H1. by rewrite IH.
Qed.

(** The block that starts here is deleted up to and including the first
    closing text behind the opening text. *)
Lemma sub_blocks_hit h opn' cls w j :
  PyStr.find cls w = Some j →
  sub_blocks (String h opn') cls 0 (String h opn' +:+ w)
  = sub_blocks (String h opn') cls 0 (PyStr.drop (j + String.length cls) w).
Proof.
  intros Hj.
  change (String h opn' +:+ w) with (String h (opn' +:+ w)).
  cbn [sub_blocks].
  change (String h (opn' +:+ w)) with (String h opn' +:+ w).
  rewrite startswith_app, drop_app, Hj.
  rewrite sub_blocks_skip. f_equal. simpl.
  replace (String.length opn' + j + String.length cls - 0)
    with (String.length opn' + (j + String.length cls)) by lia.
  apply drop_add.
Qed.

(** Where no closing text follows, nothing is deleted. *)
Lemma sub_blocks_no_close opn cls s :
  (∀ n, PyStr.contains cls (PyStr.drop (String.length opn + n) s) = false) →
  sub_blocks opn cls 0 s = s.
Proof.
  induction s as [|c s IH]; [done |]. intros H. simpl.
  assert (sub_blocks opn cls 0 s = s) as ->.
  { apply IH. intros n. specialize (H (S n)).
    by rewrite Nat.add_succ_r in H. }
  destruct (PyStr.startswith opn (String c s)); [|done].
  specialize (H 0). rewrite Nat.add_0_r in H.
  apply find_none_contains in H. by rewrite H.
Qed.

Lemma find_quiet p x z :
  quiet p x z = true →
  PyStr.find p (x +:+ z) = (λ n, String.length x + n) <$> PyStr.find p z.
Proof.
  induction x as [|c x IH]; intros H.
  - simpl. by destruct (PyStr.find p z).
  - simpl in H. apply andb_prop in H as [H1 H2]. apply negb_true_iff in H1.
    change (String c x +:+ z) with (String c (x +:+ z)) in *.
    rewrite find_cons by done. rewrite IH by done.
    by destruct (PyStr.find p z).
Qed.

Lemma drop_nil n : PyStr.drop n "" = "".
Proof. by destruct n. Qed.

Lemma drop_drop (n m : nat) s : PyStr.drop (n + m) s = PyStr.drop m (PyStr.drop n s).
Proof.
  revert s. induction n as [|n IH]; intros s; [by rewrite drop_0 |].
  destruct s as [|c s]; simpl; [by rewrite drop_nil | apply IH].
Qed.

Lemma sub_blocks_unterminated opn cls s i :
  PyStr.find opn s = Some i →
  PyStr.contains cls (PyStr.drop (i + String.length opn) s) = false →
  sub_blocks opn cls 0 s = s.
Proof.
  revert i. induction s as [|c s IH]; intros i Hfind Hclose; [done |].
  cbn [sub_blocks]. destruct (PyStr.startswith opn (String c s)) eqn:E.
  - rewrite (find_here _ _ E) in Hfind. injection Hfind as <-. simpl in Hclose.
    pose proof Hclose as Hnone. apply find_none_contains in Hnone. rewrite Hnone.
    f_equal. apply sub_blocks_no_close. intros n.
    change (PyStr.drop (String.length opn + n) s)
      with (PyStr.drop (S (String.length opn + n)) (String c s)).
    rewrite <- Nat.add_succ_r, drop_drop. by apply contains_false_drop.
  - rewrite (find_cons _ _ _ E) in Hfind.
    destruct (PyStr.find opn s) as [j|] eqn:Ej; [|done].
    injection Hfind as <-. f_equal. by apply (IH j).
Qed.

End Scanning.

(** ** Boolean tests and the propositions they decide *)

Section Relevance.

Lemma eqb_false_iff a b : String.eqb a b = false ↔ a ≠ b.
Proof. apply String.eqb_neq. Qed.

Lemma negb_eqb_true a b : negb (String.eqb a b) = true ↔ a ≠ b.
Proof. rewrite negb_true_iff. apply String.eqb_neq. Qed.

Lemma negb_startswith_true p s :
  negb (PyStr.startswith p s) = true ↔ ¬ (∃ rest, s = p +:+ rest).
Proof.
  rewrite negb_true_iff, <- startswith_spec.
  destruct (PyStr.startswith p s); naive_solver.
Qed.

Lemma negb_contains_true p s :
  negb (PyStr.contains p s) = true ↔ ¬ (∃ a b, s = a +:+ p +:+ b).
Proof.
  rewrite negb_true_iff, <- contains_spec.
  destruct (PyStr.contains p s); naive_solver.
Qed.

End Relevance.

(** ** The loops of the normalizer *)

Section Normalizer.

Lemma last_snoc_filter {A} (f : A → bool) l x :
  last (List.filter f (l ++ [x])) = if f x then Some x else last (List.filter f l).
Proof.
  rewrite List.filter_app. simpl. destruct (f x).
  - apply last_snoc.
  - by rewrite (right_id_L [] (++)).
Qed.

(** The loop over the addresses keeps the last work-tagged entry. *)
Lemma address_loop entries :
  fold_left address_step entries "" = last_tagged address_type address_formatted "work" entries.
Proof.
  induction entries as [|e entries IH] using rev_ind; [done |].
  rewrite fold_left_app. simpl. unfold last_tagged in *.
  rewrite last_snoc_filter, IH. unfold address_step.
  by destruct (type_is "work" (address_type e)).
Qed.

Lemma type_is_exclusive t : type_is "work" t = true → type_is "mobile" t = false.
Proof.
  destruct t as [t|]; simpl; [|done].
  intros ->%String.eqb_eq. done.
Qed.

(** The loop over the phones keeps the last work-tagged entry in [phone]
    and the last mobile-tagged entry in [mobile]. *)
Lemma phone_loop entries :
  fold_left phone_step entries ("", "")
  = (last_tagged phone_type phone_value "work" entries,
     last_tagged phone_type phone_value "mobile" entries).
Proof.
  induction entries as [|e entries IH] using rev_ind; [done |].
  rewrite fold_left_app. simpl. unfold last_tagged in *.
  rewrite !last_snoc_filter, IH. unfold phone_step.
  destruct (type_is "work" (phone_type e)) eqn:E.
  - by rewrite (type_is_exclusive _ E).
  - by destruct (type_is "mobile" (phone_type e)).
Qed.

(** The profile, with the two loops replaced by what they compute. *)
Lemma process_user_data_unfold (data : directory_user) :
  process_user_data data =
    let email := get_str (primaryEmail data) in
    let last_name := get_str (familyName (default no_name (name data))) in
    let phone := last_tagged phone_type phone_value "work" (default [] (phones data)) in
    let mobile := last_tagged phone_type phone_value "mobile" (default [] (phones data)) in
    let address :=
      last_tagged address_type address_formatted "work" (default [] (addresses data)) in
    if bool_decide (orgUnitPath data = Some TECHNICAL_PATH) then
      <["technicalUser" := PyBool true]>
      (<["email" := PyStr email]>
      (<["lastName" := PyStr last_name]>
      (<["address" := PyStr address]>
      (<["phone" := PyStr phone]> ∅))))
    else
      let first_name := get_str (givenName (default no_name (name data))) in
      let jobtitle := get_str (o ← head (default [] (organizations data)); org_title o) in
      let department :=
        get_str (o ← head (default [] (organizations data)); org_department o) in
      let custom_schemas := default no_custom_schemas (customSchemas data) in
      let personal_information :=
        default no_personal_information (Personal_Information custom_schemas) in
      let contractual_information :=
        default no_contractual_information (Contractual_Information custom_schemas) in
      let pronouns := get_str (Pronouns personal_information) in
      let gerne_per_du := String.eqb (get_str (GernePerDu personal_information)) "yes" in
      <["technicalUser" := PyBool false]>
      (<["email" := PyStr email]>
      (<["firstName" := PyStr first_name]>
      (<["lastName" := PyStr last_name]>
      (<["jobtitle" := PyStr jobtitle]>
      (<["address" := PyStr address]>
      (<["department" := PyStr department]>
      (<["phone" := PyStr phone]>
      (<["mobile" := PyStr mobile]>
      (<["pronouns" := PyStr pronouns]>
      (<["gernePerDu" := PyBool gerne_per_du]>
      (<["conditionalLineBreak" :=
           PyBool (negb (String.eqb pronouns "" && Bool.eqb gerne_per_du false))]>
      (<["managementRole" := PyStr (get_str (Management_Role contractual_information))]>
         ∅)))))))))))).
Proof.
  unfold process_user_data, TECHNICAL_PATH.
  rewrite phone_loop, address_loop. cbv zeta.
  destruct (bool_decide _); [done |].
  by destruct (default [] (organizations data)).
Qed.

End Normalizer.

(** ** The technical flag *)

Section Assembler.

Lemma technical_flag_of_profile (data : directory_user) :
  py_truthy (dict_get (process_user_data data) "technicalUser")
  = bool_decide (orgUnitPath data = Some TECHNICAL_PATH).
Proof.
  rewrite process_user_data_unfold. cbv zeta. unfold dict_get.
  case_bool_decide; by rewrite lookup_insert_eq.
Qed.

End Assembler.

(** ** Markers *)

Section Markers.

Implicit Types (k body x z : string).

Lemma marker_head body : marker body = String "{" (body +:+ "}").
Proof. reflexivity. Qed.

Lemma var_marker_body k : var_marker k = marker k.
Proof. reflexivity. Qed.

Lemma open_marker_body k : open_marker k = marker (k +:+ "/").
Proof. unfold open_marker, marker. by rewrite app_assoc. Qed.

Lemma close_marker_body k : close_marker k = marker ("/" +:+ k).
Proof. reflexivity. Qed.

Lemma brace_free_spec s :
  brace_free s = true ↔ PyStr.has_char "{" s = false ∧ PyStr.has_char "}" s = false.
Proof. unfold brace_free. rewrite andb_true_iff, !negb_true_iff. done. Qed.

Lemma brace_free_app a b : brace_free (a +:+ b) = brace_free a && brace_free b.
Proof.
  unfold brace_free. rewrite !has_char_app.
  by destruct (PyStr.has_char "{" a), (PyStr.has_char "}" a),
    (PyStr.has_char "{" b), (PyStr.has_char "}" b).
Qed.

Lemma regex_literal_brace_free k : regex_literal k = true → brace_free k = true.
Proof.
  induction k as [|c k IH]; [done |]. cbn [regex_literal]. intros H.
  apply andb_prop in H as [Hc Hk]. specialize (IH Hk).
  apply brace_free_spec in IH as [IH1 IH2]. apply brace_free_spec.
  cbn [PyStr.has_char]. rewrite IH1, IH2.
  split.
  - destruct (Ascii.eqb "{" c) eqn:E; [|done].
    apply Ascii.eqb_eq in E as <-. done.
  - destruct (Ascii.eqb "}" c) eqn:E; [|done].
    apply Ascii.eqb_eq in E as <-. done.
Qed.

Lemma plain_keyword_spec k :
  plain_keyword k = true →
  k ≠ "" ∧ regex_literal k = true ∧ brace_free k = true ∧ PyStr.has_char "/" k = false.
Proof.
  unfold plain_keyword. rewrite !andb_true_iff, !negb_true_iff, String.eqb_neq.
  intros [[? ?] ?]. auto using regex_literal_brace_free.
Qed.

Lemma marker_single_brace body :
  brace_free body = true → PyStr.has_char "{" (body +:+ "}") = false.
Proof. intros [H _]%brace_free_spec. by rewrite has_char_app, H. Qed.

(** A text that holds no opening brace is quiet for every marker. *)
Lemma quiet_brace_free body x z :
  PyStr.has_char "{" x = false → quiet (marker body) x z = true.
Proof. rewrite marker_head. apply quiet_no_head. Qed.

(** A text without occurrence of a marker is quiet for it before the end
    of the text and before an opening brace. *)
Lemma quiet_marker_clean body x z :
  brace_free body = true →
  PyStr.contains (marker body) x = false →
  z = "" ∨ (∃ z', z = String "{" z') →
  quiet (marker body) x z = true.
Proof.
  intros Hb Hx Hz. rewrite marker_head in *.
  apply quiet_clean; auto using marker_single_brace.
Qed.

(** Another marker is quiet for a marker, whatever follows. *)
Lemma quiet_other_marker body other z :
  brace_free body = true → brace_free other = true → body ≠ other →
  quiet (marker body) (marker other) z = true.
Proof.
  intros Hb Ho Hne. rewrite (marker_head other). cbn [quiet].
  apply andb_true_intro. split.
  - apply negb_true_iff.
    destruct (PyStr.startswith _ _) eqn:E; [|done]. exfalso.
    apply startswith_spec in E as [q E].
    rewrite marker_head in E. simpl in E. injection E as E.
    rewrite !app_assoc in E. simpl in E.
    apply brace_free_spec in Hb as [_ Hb]. apply brace_free_spec in Ho as [_ Ho].
    apply cut_at_char in E as [E _]; done.
  - rewrite marker_head. apply quiet_no_head. by apply marker_single_brace.
Qed.

Lemma marker_starts_with_brace body z : ∃ z', marker body +:+ z = String "{" z'.
Proof. by eexists. Qed.

(** The two delimiters of a plain keyword differ. *)
Lemma open_close_differ k : plain_keyword k = true → k +:+ "/" ≠ "/" +:+ k.
Proof.
  intros (Hne & _ & _ & Hs)%plain_keyword_spec.
  destruct k as [|c k]; [done |]. intros E. simpl in E. injection E as -> _.
  by rewrite has_char_head in Hs.
Qed.

Lemma literal_open_body k : regex_literal k = true → brace_free (k +:+ "/") = true.
Proof. intros H%regex_literal_brace_free. by rewrite brace_free_app, H. Qed.

Lemma literal_close_body k : regex_literal k = true → brace_free ("/" +:+ k) = true.
Proof. intros H%regex_literal_brace_free. by rewrite brace_free_app, H. Qed.

Lemma plain_literal k : plain_keyword k = true → regex_literal k = true.
Proof. by intros (_ & H & _)%plain_keyword_spec. Qed.

Lemma plain_open_body k : plain_keyword k = true → brace_free (k +:+ "/") = true.
Proof. intros. by apply literal_open_body, plain_literal. Qed.

Lemma plain_close_body k : plain_keyword k = true → brace_free ("/" +:+ k) = true.
Proof. intros. by apply literal_close_body, plain_literal. Qed.

Lemma plain_var_body k : plain_keyword k = true → brace_free k = true.
Proof. by intros (_ & _ & H & _)%plain_keyword_spec. Qed.

Lemma plain_delimiters_differ k : plain_keyword k = true → open_marker k ≠ close_marker k.
Proof.
  intros Hk E. apply (open_close_differ k Hk).
  rewrite open_marker_body, close_marker_body in E. unfold marker in E.
  apply (inj (String.append "{")) in E.
  apply cut_at_char in E as [E _]; [done | |].
  - by apply brace_free_spec, plain_open_body.
  - by apply brace_free_spec, plain_close_body.
Qed.

End Markers.

(** ** The engine, pass by pass *)

Section Engine.

Implicit Types (k text pre inner post tail new x z : string).
Implicit Types (data : gmap string py_value).

Lemma render_substitute text k data :
  render text k Substitute data
  = PyStr.replace (var_marker k) (py_str (dict_get_or data k (PyStr ""))) text.
Proof. reflexivity. Qed.

Lemma render_with_value text k data :
  render text k ConditionalBlockWithValue data
  = if py_truthy (dict_get data k)
    then PyStr.replace (var_marker k) (py_str (dict_get data k)) (remove_tags text k)
    else remove_everything_between_tags text k.
Proof. reflexivity. Qed.

Lemma render_block_only text k data :
  render text k ConditionalBlockOnly data
  = if py_is_True (dict_get data k)
    then remove_tags text k
    else remove_everything_between_tags text k.
Proof. reflexivity. Qed.

Lemma is_True_lookup data k :
  py_is_True (dict_get data k) = true ↔ data !! k = Some (PyBool true).
Proof.
  unfold dict_get. destruct (data !! k) as [[| [|] | |]|]; simpl; split; done.
Qed.

Lemma replace_marker body new text :
  PyStr.replace (marker body) new text = PyStr.replace_scan (marker body) new 0 text.
Proof. reflexivity. Qed.

Lemma replace_marker_quiet body new x z :
  quiet (marker body) x z = true →
  PyStr.replace (marker body) new (x +:+ z) = x +:+ PyStr.replace (marker body) new z.
Proof. rewrite !replace_marker. apply replace_scan_quiet. Qed.

Lemma replace_marker_hit body new z :
  PyStr.replace (marker body) new (marker body +:+ z)
  = new +:+ PyStr.replace (marker body) new z.
Proof. rewrite !replace_marker, marker_head. apply replace_scan_hit. Qed.

Lemma replace_marker_none body new x :
  brace_free body = true → PyStr.contains (marker body) x = false →
  PyStr.replace (marker body) new x = x.
Proof.
  intros Hb Hx. rewrite replace_marker. apply replace_scan_none.
  apply quiet_marker_clean; auto.
Qed.

(** Every occurrence is replaced: a text cut at the occurrences of a
    marker comes back with the new text at each cut. *)
Lemma replace_join body new parts :
  brace_free body = true →
  Forall (λ x, PyStr.contains (marker body) x = false) parts →
  PyStr.replace (marker body) new (PyStr.join (marker body) parts) = PyStr.join new parts.
Proof.
  intros Hb Hparts. induction Hparts as [|x parts Hx Hparts IH]; [done |].
  destruct parts as [|y parts]; [by apply replace_marker_none |].
  change (PyStr.join ?sep (x :: y :: parts)) with (x +:+ sep +:+ PyStr.join sep (y :: parts)).
  rewrite replace_marker_quiet.
  - by rewrite replace_marker_hit, IH.
  - apply quiet_marker_clean; auto. right. apply marker_starts_with_brace.
Qed.

Context (k : string) (Hk : regex_literal k = true).

Lemma remove_tags_block pre inner post :
  open_marker k ≠ close_marker k →
  PyStr.contains (open_marker k) pre = false →
  PyStr.contains (open_marker k) inner = false →
  PyStr.contains (close_marker k) (pre +:+ inner) = false →
  remove_tags (pre +:+ open_marker k +:+ inner +:+ close_marker k +:+ post) k
  = pre +:+ inner +:+ remove_tags post k.
Proof.
  intros Hdiff Hpre Hinner Hclose. unfold remove_tags.
  rewrite open_marker_body, close_marker_body in *.
  pose proof (literal_open_body k Hk) as Ho.
  pose proof (literal_close_body k Hk) as Hc.
  assert (k +:+ "/" ≠ "/" +:+ k) as Hbodies by (intros E; apply Hdiff; by rewrite E).
  rewrite (replace_marker_quiet _ _ pre)
    by (apply quiet_marker_clean; auto; right; apply marker_starts_with_brace).
  rewrite replace_marker_hit, app_nil_l.
  rewrite (replace_marker_quiet _ _ inner)
    by (apply quiet_marker_clean; auto; right; apply marker_starts_with_brace).
  rewrite (replace_marker_quiet _ _ (marker ("/" +:+ k)))
    by (apply quiet_other_marker; auto).
  rewrite <- (app_assoc pre inner).
  rewrite (replace_marker_quiet _ _ (pre +:+ inner))
    by (apply quiet_marker_clean; auto; right; apply marker_starts_with_brace).
  rewrite replace_marker_hit, app_nil_l. by rewrite app_assoc.
Qed.

(** The first block is deleted whole; the text behind it is treated
    likewise. *)
Lemma delete_block pre inner post :
  PyStr.contains (open_marker k) pre = false →
  PyStr.contains (close_marker k) inner = false →
  remove_everything_between_tags (pre +:+ open_marker k +:+ inner +:+ close_marker k +:+ post) k
  = pre +:+ remove_everything_between_tags post k.
Proof.
  intros Hpre Hinner. unfold remove_everything_between_tags.
  pose proof (literal_open_body k Hk) as Ho.
  pose proof (literal_close_body k Hk) as Hc.
  rewrite sub_blocks_quiet.
  2:{ rewrite open_marker_body in *. apply quiet_marker_clean; auto.
      right. apply marker_starts_with_brace. }
  f_equal.
  assert (PyStr.find (close_marker k) (inner +:+ close_marker k +:+ post)
          = Some (String.length inner)) as Hfind.
  { rewrite find_quiet.
    - rewrite find_here by apply startswith_app. simpl. f_equal. lia.
    - rewrite close_marker_body in *. apply quiet_marker_clean; auto.
      right. apply marker_starts_with_brace. }
  change (open_marker k) with (String "{" (k +:+ "/}")).
  rewrite (sub_blocks_hit _ _ _ _ _ Hfind).
  by rewrite drop_add, drop_app.
Qed.

(** A text without a complete block is left as it is. *)
Lemma delete_none tail :
  PyStr.contains (open_marker k) tail = false ∨ unterminated tail k = true →
  remove_everything_between_tags tail k = tail.
Proof.
  unfold remove_everything_between_tags. intros [Ho|Hun].
  - rewrite <- (app_nil_r tail) at 1. rewrite sub_blocks_quiet.
    + simpl. apply app_nil_r.
    + rewrite open_marker_body in *. apply quiet_marker_clean; auto using literal_open_body.
  - unfold unterminated in Hun.
    destruct (PyStr.find (open_marker k) tail) as [i|] eqn:Ei; [|done].
    apply negb_true_iff in Hun.
    by apply (sub_blocks_unterminated _ _ _ i).
Qed.

End Engine.

(** ** Every text can be cut *)

Section Cuts.

Implicit Types (p s a b : string) (parts : list string).

Lemma startswith_app_l p x y : PyStr.startswith p x = true → PyStr.startswith p (x +:+ y) = true.
Proof.
  intros [r ->]%startswith_spec. rewrite app_assoc. apply startswith_app.
Qed.

(** The text before the first occurrence of a pattern holds none. *)
Lemma find_split h p' s i :
  PyStr.find (String h p') s = Some i →
  ∃ a b, s = a +:+ String h p' +:+ b ∧ String.length a = i
         ∧ PyStr.contains (String h p') a = false.
Proof.
  revert i. induction s as [|c s IH]; intros i Hfind.
  - cbn in Hfind. done.
  - destruct (PyStr.startswith (String h p') (String c s)) eqn:E.
    + rewrite (find_here _ _ E) in Hfind. injection Hfind as <-.
      apply startswith_spec in E as [r E]. by exists "", r.
    + rewrite (find_cons _ _ _ E) in Hfind.
      destruct (PyStr.find (String h p') s) as [j|] eqn:Ej; [|done].
      injection Hfind as <-.
      destruct (IH j eq_refl) as (a & b & -> & Hlen & Ha).
      exists (String c a), b. split; [done |]. split; [by rewrite <- Hlen |].
      rewrite contains_cons, Ha, orb_false_r.
      destruct (PyStr.startswith (String h p') (String c a)) eqn:E'; [|done].
      apply (startswith_app_l _ _ (String h p' +:+ b)) in E'.
      cbn [String.append] in E, E'. congruence.
Qed.

(** Every text can be cut at the occurrences of a pattern. *)
Lemma cut_exists h p' s :
  ∃ parts, parts ≠ [] ∧ s = PyStr.join (String h p') parts ∧ cut_at (String h p') parts.
Proof.
  remember (String.length s) as n eqn:Hn. revert s Hn.
  induction n as [n IH] using lt_wf_ind. intros s ->.
  destruct (PyStr.find (String h p') s) as [i|] eqn:Ei.
  - destruct (find_split _ _ _ _ Ei) as (a & b & -> & _ & Ha).
    destruct (IH (String.length b)) with (s := b) as (parts & Hne & -> & Hparts); [|done |].
    { rewrite !length_app. simpl. lia. }
    exists (a :: parts). split; [done |]. split; [|by constructor].
    by destruct parts.
  - exists [s]. split; [done |]. split; [done |].
    constructor; [by apply find_none_contains | constructor].
Qed.

(** Every text is a sequence of first blocks followed by a text without
    complete block. *)
Lemma blocks_exist k s :
  ∃ blocks tail,
    s = PyStr.cat (map (block_text k) blocks) +:+ tail
    ∧ Forall (first_block k) blocks
    ∧ (PyStr.contains (open_marker k) tail = false ∨ unterminated tail k = true).
Proof.
  remember (String.length s) as n eqn:Hn. revert s Hn.
  induction n as [n IH] using lt_wf_ind. intros s ->.
  destruct (PyStr.find (open_marker k) s) as [i|] eqn:Ei.
  2:{ exists [], s. split; [done |]. split; [constructor |].
      left. by apply find_none_contains. }
  change (open_marker k) with (String "{" (k +:+ "/}")) in Ei.
  destruct (find_split _ _ _ _ Ei) as (pre & r & Hs & Hlen & Hpre).
  change (String "{" (k +:+ "/}")) with (open_marker k) in *.
  destruct (PyStr.find (close_marker k) r) as [j|] eqn:Ej.
  - change (close_marker k) with (String "{" ("/" +:+ k +:+ "}")) in Ej.
    destruct (find_split _ _ _ _ Ej) as (inner & post & Hr & _ & Hinner).
    change (String "{" ("/" +:+ k +:+ "}")) with (close_marker k) in *.
    destruct (IH (String.length post)) with (s := post)
      as (blocks & tail & -> & Hblocks & Htail); [|done |].
    { subst s r. rewrite !length_app.
      assert (0 < String.length (close_marker k)) by (simpl; lia). lia. }
    exists ((pre, inner) :: blocks), tail. split; [|split; [|done]].
    + subst s r. cbn [map PyStr.cat]. unfold block_text. cbn [fst snd].
      by rewrite !app_assoc.
    + by constructor.
  - exists [], s. split; [done |]. split; [constructor |].
    right. unfold unterminated. rewrite Ei.
    apply negb_true_iff. subst s.
    rewrite <- Hlen, drop_add, drop_app.
    by apply find_none_contains.
Qed.

End Cuts.

(** ** The text of a template *)

Section TemplateText.

Implicit Types (k v z : string) (t u : template).

Lemma render_tapp t u : render_template (tapp t u) = render_template t +:+ render_template u.
Proof.
  induction t as [|s rest IH|k' rest IH|k' body IHb rest IH]; cbn [tapp render_template].
  - done.
  - by rewrite IH, app_assoc.
  - by rewrite IH, app_assoc.
  - by rewrite IH, !app_assoc.
Qed.

Lemma subst_var_tapp k v t u : subst_var k v (tapp t u) = tapp (subst_var k v t) (subst_var k v u).
Proof.
  induction t as [|s rest IH|k' rest IH|k' body IHb rest IH]; cbn [tapp subst_var].
  - done.
  - by rewrite IH.
  - destruct (String.eqb k k'); cbn [tapp]; by rewrite IH.
  - by rewrite IH.
Qed.

Lemma plain_no_slash k : plain_keyword k = true → PyStr.has_char "/" k = false.
Proof. by intros (_ & _ & _ & H)%plain_keyword_spec. Qed.

Lemma var_is_not_open k k' : plain_keyword k = true → k ≠ k' +:+ "/".
Proof.
  intros Hs%plain_no_slash ->.
  by rewrite has_char_app, has_char_head, orb_true_r in Hs.
Qed.

Lemma var_is_not_close k k' : plain_keyword k = true → k ≠ "/" +:+ k'.
Proof.
  intros Hs%plain_no_slash ->. cbn [String.append] in Hs.
  by rewrite has_char_head in Hs.
Qed.

Lemma open_is_not_close k k' : plain_keyword k = true → k +:+ "/" ≠ "/" +:+ k'.
Proof.
  intros (Hne & _ & _ & Hs)%plain_keyword_spec.
  destruct k as [|c k]; [done |]. intros E. simpl in E. injection E as -> _.
  by rewrite has_char_head in Hs.
Qed.

Lemma open_inj k k' :
  plain_keyword k = true → plain_keyword k' = true → k +:+ "/" = k' +:+ "/" → k = k'.
Proof.
  intros Hk%plain_no_slash Hk'%plain_no_slash E.
  by apply cut_at_char in E as [E _].
Qed.

Lemma close_inj k k' : "/" +:+ k = "/" +:+ k' → k = k'.
Proof. intros E. simpl in E. by injection E. Qed.

End TemplateText.

(** ** The passes of the engine on the text of a template *)

Section TemplatePasses.

Implicit Types (v z body other new : string) (t u : template).

Ltac marker_bodies :=
  rewrite ?var_marker_body, ?open_marker_body, ?close_marker_body in *.

Ltac split_shape H :=
  cbn [shape] in H;
  repeat match type of H with
         | _ && _ = true => let H' := fresh "Hshape" in apply andb_prop in H as [H H']
         end;
  repeat match goal with
         | H0 : negb _ = true |- _ => apply negb_true_iff in H0
         end.

Lemma replace_over_text body new s z :
  PyStr.has_char "{" s = false →
  PyStr.replace (marker body) new (s +:+ z) = s +:+ PyStr.replace (marker body) new z.
Proof. intros Hs. apply replace_marker_quiet. by apply quiet_brace_free. Qed.

Lemma replace_over_marker body other new z :
  brace_free body = true → brace_free other = true → body ≠ other →
  PyStr.replace (marker body) new (marker other +:+ z)
  = marker other +:+ PyStr.replace (marker body) new z.
Proof. intros. apply replace_marker_quiet. by apply quiet_other_marker. Qed.

Lemma sub_over_text body cls s z :
  PyStr.has_char "{" s = false →
  sub_blocks (marker body) cls 0 (s +:+ z) = s +:+ sub_blocks (marker body) cls 0 z.
Proof. intros Hs. apply sub_blocks_quiet. by apply quiet_brace_free. Qed.

Lemma sub_over_marker body other cls z :
  brace_free body = true → brace_free other = true → body ≠ other →
  sub_blocks (marker body) cls 0 (marker other +:+ z)
  = marker other +:+ sub_blocks (marker body) cls 0 z.
Proof. intros. apply sub_blocks_quiet. by apply quiet_other_marker. Qed.

Context (k : string) (Hk : plain_keyword k = true).

(** Substitution of the variable markers of [k]. *)
Lemma replace_var_template v t z :
  shape t = true →
  PyStr.replace (var_marker k) v (render_template t +:+ z)
  = render_template (subst_var k v t) +:+ PyStr.replace (var_marker k) v z.
Proof.
  revert z.
  induction t as [|s rest IH|k' rest IH|k' body IHb rest IH]; intros z Ht;
    cbn [render_template subst_var]; split_shape Ht.
  - done.
  - marker_bodies. rewrite !app_assoc, replace_over_text by done.
    by rewrite IH.
  - marker_bodies. rewrite !app_assoc.
    destruct (String.eqb_spec k k') as [<-|Hne]; cbn [render_template]; marker_bodies.
    + rewrite replace_marker_hit, IH by done. by rewrite ?app_assoc.
    + rewrite replace_over_marker by auto using plain_var_body.
      rewrite IH by done. by rewrite ?app_assoc.
  - marker_bodies. rewrite !app_assoc.
    rewrite replace_over_marker
      by auto using plain_var_body, plain_open_body, var_is_not_open.
    rewrite IHb by done.
    rewrite replace_over_marker
      by auto using plain_var_body, plain_close_body, var_is_not_close.
    rewrite IH by done. by rewrite ?app_assoc.
Qed.

(** Removal of the opening markers of [k]. *)
Lemma remove_open_template t z :
  shape t = true →
  PyStr.replace (open_marker k) "" (render_template t +:+ z)
  = render_without_open k t +:+ PyStr.replace (open_marker k) "" z.
Proof.
  revert z.
  induction t as [|s rest IH|k' rest IH|k' body IHb rest IH]; intros z Ht;
    cbn [render_template render_without_open]; split_shape Ht.
  - done.
  - marker_bodies. rewrite !app_assoc, replace_over_text by done.
    by rewrite IH.
  - marker_bodies. rewrite !app_assoc.
    rewrite replace_over_marker; auto using plain_var_body, plain_open_body.
    + by rewrite IH.
    + intros E. by apply (var_is_not_open k' k).
  - marker_bodies. rewrite !app_assoc.
    destruct (String.eqb_spec k k') as [<-|Hne].
    + rewrite replace_marker_hit. rewrite ?app_nil_l. rewrite IHb by done.
      rewrite replace_over_marker
        by auto using plain_open_body, plain_close_body, open_is_not_close.
      rewrite IH by done. by rewrite ?app_assoc.
    + rewrite replace_over_marker; auto using plain_open_body.
      2:{ intros E. apply Hne. by apply open_inj. }
      rewrite IHb by done.
      rewrite replace_over_marker
        by auto using plain_open_body, plain_close_body, open_is_not_close.
      rewrite IH by done. by rewrite ?app_assoc.
Qed.

(** Removal of the closing markers of [k] from what the removal of its
    opening markers left. *)
Lemma remove_close_template t z :
  shape t = true →
  PyStr.replace (close_marker k) "" (render_without_open k t +:+ z)
  = render_template (unwrap k t) +:+ PyStr.replace (close_marker k) "" z.
Proof.
  revert z.
  induction t as [|s rest IH|k' rest IH|k' body IHb rest IH]; intros z Ht;
    cbn [render_template render_without_open unwrap]; split_shape Ht.
  - done.
  - marker_bodies. rewrite !app_assoc, replace_over_text by done.
    by rewrite IH.
  - marker_bodies. rewrite !app_assoc.
    rewrite replace_over_marker; auto using plain_var_body, plain_close_body.
    + by rewrite IH.
    + intros E. by apply (var_is_not_close k' k).
  - destruct (String.eqb_spec k k') as [<-|Hne].
    + rewrite render_tapp. marker_bodies. rewrite ?app_nil_l. rewrite !app_assoc.
      rewrite IHb by done. rewrite replace_marker_hit. rewrite ?app_nil_l.
      by rewrite IH.
    + cbn [render_template]. marker_bodies. rewrite !app_assoc.
      rewrite replace_over_marker; auto using plain_open_body, plain_close_body.
      2:{ intros E. by apply (open_is_not_close k' k). }
      rewrite IHb by done.
      rewrite replace_over_marker; auto using plain_close_body.
      2:{ intros E. apply Hne. by apply close_inj. }
      rewrite IH by done. by rewrite ?app_assoc.
Qed.

Lemma remove_tags_template t :
  shape t = true → remove_tags (render_template t) k = render_template (unwrap k t).
Proof.
  intros Ht. unfold remove_tags.
  rewrite <- (app_nil_r (render_template t)), remove_open_template by done.
  change (PyStr.replace (open_marker k) "" "") with "".
  rewrite remove_close_template by done.
  change (PyStr.replace (close_marker k) "" "") with "".
  apply app_nil_r.
Qed.

(** The closing marker of [k] does not occur in the text of a template
    without block of [k]. *)
Lemma quiet_close_template t z :
  shape t = true → has_block k t = false →
  quiet (close_marker k) (render_template t) z = true.
Proof.
  revert z.
  induction t as [|s rest IH|k' rest IH|k' body IHb rest IH]; intros z Ht Hb;
    cbn [render_template has_block] in *; split_shape Ht.
  - done.
  - marker_bodies. apply quiet_app; [by apply quiet_brace_free | by apply IH].
  - marker_bodies. apply quiet_app; [|by apply IH].
    apply quiet_other_marker; auto using plain_var_body, plain_close_body.
    intros E. by apply (var_is_not_close k' k).
  - apply orb_false_elim in Hb as [Hb Hrest]. apply orb_false_elim in Hb as [Hne Hbody].
    apply String.eqb_neq in Hne. marker_bodies.
    apply quiet_app; [|apply quiet_app; [|apply quiet_app]]; [| by apply IHb | | by apply IH].
    + apply quiet_other_marker; auto using plain_open_body, plain_close_body.
      intros E. by apply (open_is_not_close k' k).
    + apply quiet_other_marker; auto using plain_close_body.
      intros E. apply Hne. by apply close_inj.
Qed.

Lemma quiet_contains p x : quiet p x "" = true → p ≠ "" → PyStr.contains p x = false.
Proof.
  intros Hq Hp. induction x as [|c x IH].
  - rewrite contains_nil. by destruct p.
  - cbn [quiet] in Hq. apply andb_prop in Hq as [H1 H2].
    apply negb_true_iff in H1. rewrite <- (app_nil_r x) in H1 at 1.
    change (String c (x +:+ "") +:+ "") with (String c ((x +:+ "") +:+ "")) in H1.
    rewrite !app_nil_r in H1.
    rewrite contains_cons, H1. by apply IH.
Qed.

(** Deletion of the blocks of [k]. *)
Lemma drop_block_template t z :
  shape t = true → unnested k t = true →
  remove_everything_between_tags (render_template t +:+ z) k
  = render_template (drop_block k t) +:+ remove_everything_between_tags z k.
Proof.
  revert z.
  induction t as [|s rest IH|k' rest IH|k' body IHb rest IH]; intros z Ht Hu;
    cbn [render_template drop_block unnested] in *; split_shape Ht.
  - done.
  - unfold remove_everything_between_tags in *. marker_bodies.
    rewrite !app_assoc, sub_over_text by done. by rewrite IH.
  - unfold remove_everything_between_tags in *. marker_bodies.
    rewrite !app_assoc, sub_over_marker; auto using plain_var_body, plain_open_body.
    + by rewrite IH.
    + intros E. by apply (var_is_not_open k' k).
  - apply andb_prop in Hu as [Hbody Hrest].
    destruct (String.eqb_spec k k') as [<-|Hne].
    + apply negb_true_iff in Hbody. rewrite !app_assoc.
      rewrite <- (app_nil_l (open_marker k +:+ _)).
      rewrite (delete_block k (plain_literal k Hk)); [by rewrite IH | done |].
      apply quiet_contains; [by apply quiet_close_template | done].
    + cbn [render_template].
      unfold remove_everything_between_tags in *. marker_bodies. rewrite !app_assoc.
      rewrite sub_over_marker; auto using plain_open_body.
      2:{ intros E. apply Hne. by apply open_inj. }
      rewrite IHb by done.
      rewrite sub_over_marker
        by auto using plain_open_body, plain_close_body, open_is_not_close.
      rewrite IH by done. by rewrite ?app_assoc.
Qed.

End TemplatePasses.

(** ** The passes on a resolvable template *)

Section Resolution.

Implicit Types (k v : string) (a : action) (t u : template).
Implicit Types (passes : list (string * action)) (enc : list string).

Ltac split_andb H :=
  repeat match type of H with
         | _ && _ = true => let H' := fresh "Hr" in apply andb_prop in H as [H H']
         end.

Lemma shape_tapp t u : shape t = true → shape u = true → shape (tapp t u) = true.
Proof.
  intros Ht Hu.
  induction t as [|s rest IH|k' rest IH|k' body IHb rest IH]; cbn [tapp shape] in *;
    [done | | |]; split_andb Ht; rewrite ?Ht, ?Hr, ?Hr0; simpl; auto.
Qed.

Lemma shape_unwrap k t : shape t = true → shape (unwrap k t) = true.
Proof.
  induction t as [|s rest IH|k' rest IH|k' body IHb rest IH]; intros Ht;
    cbn [unwrap shape] in *; [done | | |]; split_andb Ht.
  - by rewrite Ht, IH.
  - by rewrite Ht, IH.
  - destruct (String.eqb k k').
    + apply shape_tapp; auto.
    + cbn [shape]. by rewrite Ht, IHb, IH.
Qed.

Lemma pass_text_template k a t :
  plain_keyword k = true → shape t = true →
  (a = Delete → unnested k t = true) →
  pass_text k a (render_template t) = render_template (act k a t).
Proof.
  intros Hk Ht Hu.
  assert (∀ v u, shape u = true →
            PyStr.replace (var_marker k) v (render_template u)
            = render_template (subst_var k v u)) as Hfill.
  { intros v u Hshape.
    rewrite <- (app_nil_r (render_template u)), replace_var_template by done.
    change (PyStr.replace (var_marker k) v "") with "". apply app_nil_r. }
  destruct a as [v|[v|]|]; cbn [pass_text act].
  - by apply Hfill.
  - rewrite remove_tags_template by done. apply Hfill. by apply shape_unwrap.
  - by apply remove_tags_template.
  - rewrite <- (app_nil_r (render_template t)), drop_block_template by auto.
    change (remove_everything_between_tags "" k) with "". apply app_nil_r.
Qed.

Lemma render_is_pass_text text k m (profile : gmap string py_value) :
  render text k m profile = pass_text k (action_of m k profile) text.
Proof.
  destruct m; cbn [action_of].
  - done.
  - rewrite render_with_value. by destruct (py_truthy _).
  - rewrite render_block_only. by destruct (py_is_True _).
Qed.

Lemma act_text k a s rest : act k a (Text s rest) = Text s (act k a rest).
Proof. by destruct a as [v|[v|]|]. Qed.

Lemma act_var k a k' rest :
  act k a (Var k' rest)
  = if String.eqb k k'
    then match a with
         | Fill v | Keep (Some v) => Text v (act k a rest)
         | Keep None | Delete => Var k' (act k a rest)
         end
    else Var k' (act k a rest).
Proof. destruct a as [v|[v|]|]; cbn [act unwrap drop_block subst_var]; by destruct (String.eqb k k'). Qed.

Lemma act_block k a k' body rest :
  act k a (Block k' body rest)
  = if String.eqb k k'
    then match a with
         | Fill _ => Block k' (act k a body) (act k a rest)
         | Keep _ => tapp (act k a body) (act k a rest)
         | Delete => act k a rest
         end
    else Block k' (act k a body) (act k a rest).
Proof.
  destruct a as [v|[v|]|]; cbn [act unwrap drop_block subst_var];
    destruct (String.eqb k k'); rewrite ?subst_var_tapp; done.
Qed.

Lemma resolvable_tapp passes enc t u :
  resolvable passes enc t = true → resolvable passes enc u = true →
  resolvable passes enc (tapp t u) = true.
Proof.
  intros Ht Hu.
  induction t as [|s rest IH|k' rest IH|k' body IHb rest IH]; cbn [tapp resolvable] in *;
    [done | | |]; split_andb Ht.
  - by rewrite Ht, IH.
  - by rewrite Ht, Hr0, IH.
  - by rewrite Ht, Hr2, Hr1, Hr0, IH.
Qed.

Lemma action_for_head k a passes : action_for k ((k, a) :: passes) = Some a.
Proof. cbn [action_for]. by rewrite String.eqb_refl. Qed.

Lemma action_for_other k k' a passes :
  k ≠ k' → action_for k' ((k, a) :: passes) = action_for k' passes.
Proof.
  intros Hne. cbn [action_for].
  destruct (String.eqb_spec k' k) as [->|_]; done.
Qed.

Lemma mem_cons k k' enc : mem k (k' :: enc) = String.eqb k k' || mem k enc.
Proof. reflexivity. Qed.

(** A pass that fills or keeps. *)
Lemma resolvable_kept k a passes t :
  a ≠ Delete →
  ∀ enc1 enc2,
    (∀ x, x ≠ k → mem x enc1 = mem x enc2) →
    resolvable ((k, a) :: passes) enc1 t = true →
    resolvable passes enc2 (act k a t) = true.
Proof.
  intros Ha.
  induction t as [|s rest IH|k' rest IH|k' body IHb rest IH]; intros enc1 enc2 Henc Ht;
    cbn [resolvable] in Ht; split_andb Ht.
  - by destruct a as [v|[v|]|].
  - rewrite act_text. cbn [resolvable]. by rewrite Ht, (IH enc1 enc2).
  - rewrite act_var. destruct (String.eqb_spec k k') as [<-|Hne].
    + rewrite action_for_head in Hr0.
      destruct a as [v|[v|]|]; try done; cbn [resolvable];
        by rewrite Hr0, (IH enc1 enc2).
    + rewrite action_for_other in Hr0 by done.
      cbn [resolvable]. rewrite Ht, <- (Henc k') by done.
      by rewrite Hr0, (IH enc1 enc2).
  - rewrite act_block. destruct (String.eqb_spec k k') as [<-|Hne].
    + rewrite action_for_head in Hr1.
      destruct a as [v|o|]; try done.
      apply resolvable_tapp; [|by apply (IH enc1 enc2)].
      apply (IHb (k :: enc1) enc2); [|done].
      intros x Hx. rewrite mem_cons, (proj2 (String.eqb_neq x k) Hx). by apply Henc.
    + rewrite action_for_other in Hr1 by done.
      cbn [resolvable]. rewrite Ht, <- (Henc k') by done.
      rewrite Hr2, Hr1, (IH enc1 enc2) by done.
      rewrite (IHb (k' :: enc1) (k' :: enc2)); [done | | done].
      intros x Hx. rewrite !mem_cons. by rewrite Henc.
Qed.

(** A pass that deletes. *)
Lemma resolvable_deleted k passes t :
  ∀ enc,
    mem k enc = false →
    resolvable ((k, Delete) :: passes) enc t = true →
    resolvable passes enc (drop_block k t) = true.
Proof.
  induction t as [|s rest IH|k' rest IH|k' body IHb rest IH]; intros enc Henc Ht;
    cbn [resolvable drop_block] in *; split_andb Ht.
  - done.
  - by rewrite Ht, IH.
  - destruct (String.eqb_spec k k') as [<-|Hne].
    + rewrite action_for_head in Hr0. by rewrite Henc in Hr0.
    + rewrite action_for_other in Hr0 by done. by rewrite Ht, Hr0, IH.
  - destruct (String.eqb_spec k k') as [<-|Hne]; [by apply IH |].
    rewrite action_for_other in Hr1 by done.
    cbn [resolvable]. rewrite Ht, Hr2, Hr1, IH by done.
    rewrite IHb; [done | | done].
    rewrite mem_cons, Henc. apply String.eqb_neq in Hne. by rewrite Hne.
Qed.

Lemma resolvable_step k a passes t :
  resolvable ((k, a) :: passes) [] t = true → resolvable passes [] (act k a t) = true.
Proof.
  intros Ht. destruct a as [v|o|].
  - by apply (resolvable_kept k (Fill v) passes t ltac:(done) [] []).
  - by apply (resolvable_kept k (Keep o) passes t ltac:(done) [] []).
  - by apply resolvable_deleted.
Qed.

Lemma resolvable_shape passes enc t : resolvable passes enc t = true → shape t = true.
Proof.
  revert enc.
  induction t as [|s rest IH|k' rest IH|k' body IHb rest IH]; intros enc Ht;
    cbn [resolvable shape] in *; [done | | |]; split_andb Ht.
  - by rewrite Ht, (IH enc).
  - by rewrite Ht, (IH enc).
  - by rewrite Ht, (IHb (k' :: enc)), (IH enc).
Qed.

Lemma resolvable_no_block k passes t :
  ∀ enc, mem k enc = true → resolvable passes enc t = true → has_block k t = false.
Proof.
  induction t as [|s rest IH|k' rest IH|k' body IHb rest IH]; intros enc Henc Ht;
    cbn [resolvable has_block] in *; [done | | |]; split_andb Ht.
  - by apply (IH enc).
  - by apply (IH enc).
  - rewrite (IH enc), (IHb (k' :: enc)), !orb_false_r; try done.
    + destruct (String.eqb_spec k k') as [<-|Hne]; [|done].
      by rewrite Henc in Hr2.
    + rewrite mem_cons, Henc. apply orb_true_r.
Qed.

Lemma resolvable_unnested k passes t :
  ∀ enc, resolvable passes enc t = true → unnested k t = true.
Proof.
  induction t as [|s rest IH|k' rest IH|k' body IHb rest IH]; intros enc Ht;
    cbn [resolvable unnested] in *; [done | | |]; split_andb Ht.
  - by apply (IH enc).
  - by apply (IH enc).
  - rewrite (IH enc) by done. rewrite andb_true_r.
    destruct (String.eqb_spec k k') as [<-|Hne].
    + rewrite (resolvable_no_block k passes body (k :: enc)); try done.
      rewrite mem_cons, String.eqb_refl. done.
    + by apply (IHb (k' :: enc)).
Qed.

End Resolution.

(** ** The assembler as a run of passes *)

Section AssemblerOnTemplates.

Implicit Types (t : template) (passes : list (string * action)).
Implicit Types (profile : gmap string py_value).

Lemma run_template passes :
  forallb (λ p, plain_keyword p.1) passes = true →
  ∀ t, resolvable passes [] t = true →
       run_text passes (render_template t) = render_template (run passes t)
       ∧ resolvable [] [] (run passes t) = true.
Proof.
  induction passes as [|[k a] passes IH]; intros Hplain t Ht; [done |].
  cbn [forallb fst] in Hplain. apply andb_prop in Hplain as [Hk Hplain].
  cbn [run_text run].
  rewrite pass_text_template; eauto using resolvable_shape, resolvable_unnested.
  apply IH; [done |]. by apply resolvable_step.
Qed.

Lemma resolved_no_brace t enc :
  resolvable [] enc t = true → PyStr.has_char "{" (render_template t) = false.
Proof.
  revert enc.
  induction t as [|s rest IH|k' rest IH|k' body IHb rest IH]; intros enc Ht;
    cbn [resolvable render_template action_for] in *; [done | | |].
  - apply andb_prop in Ht as [Hs Hrest]. apply negb_true_iff in Hs.
    by rewrite has_char_app, Hs, (IH enc).
  - by rewrite andb_false_r in Ht.
  - by rewrite andb_false_r in Ht.
Qed.

Lemma no_brace_no_marker body s :
  PyStr.has_char "{" s = false → PyStr.contains (marker body) s = false.
Proof.
  intros Hs. apply quiet_contains; [|done]. by apply quiet_brace_free.
Qed.

Lemma run_text_app passes passes' text :
  run_text (passes ++ passes') text = run_text passes' (run_text passes text).
Proof.
  revert text. induction passes as [|[k a] passes IH]; intros text; [done |].
  cbn [run_text app]. apply IH.
Qed.

Lemma apply_replacements_run (fields : list (string * mode)) profile text :
  apply_replacements (map (λ entry, (entry.1, operator_of entry.2)) fields) profile text
  = run_text (map (λ entry, (entry.1, action_of entry.2 entry.1 profile)) fields) text.
Proof.
  revert text. induction fields as [|[k m] fields IH]; intros text; [done |].
  cbn [map run_text fst snd]. rewrite <- render_is_pass_text, <- IH. done.
Qed.

Lemma replacements_for_field_list profile :
  replacements_for profile = map (λ entry, (entry.1, operator_of entry.2)) (field_list profile).
Proof. unfold replacements_for, field_list. by destruct (py_truthy _). Qed.

(** The assembler is the run of its passes. *)
Lemma build_signature_run template profile :
  build_signature template profile = run_text (passes_of profile) template.
Proof.
  unfold build_signature, passes_of.
  rewrite run_text_app, <- apply_replacements_run, <- replacements_for_field_list.
  done.
Qed.

Lemma passes_of_plain profile : forallb (λ p, plain_keyword p.1) (passes_of profile) = true.
Proof. unfold passes_of, field_list. by destruct (py_truthy _). Qed.

End AssemblerOnTemplates.


(** ** Passes that find nothing to do, and passes that only delete *)

Section IdlePasses.

Implicit Types (k text new : string) (data : gmap string py_value).

Lemma remove_tags_none k text :
  regex_literal k = true →
  PyStr.contains (open_marker k) text = false →
  PyStr.contains (close_marker k) text = false →
  remove_tags text k = text.
Proof.
  intros Hk Ho Hc. unfold remove_tags. rewrite open_marker_body, close_marker_body in *.
  rewrite (replace_marker_none (k +:+ "/")) by auto using literal_open_body.
  apply replace_marker_none; auto using literal_close_body.
Qed.

Lemma marker_free_spec k text :
  marker_free k text = true ↔
    PyStr.contains (var_marker k) text = false
    ∧ PyStr.contains (open_marker k) text = false
    ∧ PyStr.contains (close_marker k) text = false.
Proof. unfold marker_free. rewrite !andb_true_iff, !negb_true_iff. tauto. Qed.

Lemma pass_text_idle k a text :
  regex_literal k = true → marker_free k text = true → pass_text k a text = text.
Proof.
  intros Hk (Hv & Ho & Hc)%marker_free_spec.
  pose proof (regex_literal_brace_free k Hk) as Hb.
  destruct a as [v|[v|]|]; cbn [pass_text].
  - rewrite var_marker_body in *. by apply replace_marker_none.
  - rewrite remove_tags_none by done. rewrite var_marker_body in *.
    by apply replace_marker_none.
  - by apply remove_tags_none.
  - apply delete_none; auto.
Qed.

Lemma run_text_idle passes text :
  Forall (λ p, regex_literal p.1 = true ∧ marker_free p.1 text = true) passes →
  run_text passes text = text.
Proof.
  induction 1 as [|[k a] passes [Hk Hfree] _ IH]; [done |].
  cbn [run_text]. cbn [fst] in *. by rewrite pass_text_idle.
Qed.

Lemma passes_of_keys profile : (passes_of profile).*1 = active_keywords profile.
Proof.
  unfold passes_of, active_keywords. rewrite fmap_app, <- list_fmap_compose. done.
Qed.

Lemma active_keywords_plain (profile : gmap string py_value) :
  Forall (λ k, plain_keyword k = true) (active_keywords profile).
Proof.
  unfold active_keywords, field_list.
  destruct (py_truthy _); cbn; repeat constructor.
Qed.

(** Replacing by nothing and deleting never make a text longer. *)
Lemma length_replace_scan_nil old n text :
  (String.length (PyStr.replace_scan old "" n text) ≤ String.length text)%nat.
Proof.
  revert n. induction text as [|c text IH]; intros n; [done |].
  cbn [PyStr.replace_scan String.length]. destruct n as [|n].
  - destruct (PyStr.startswith old (String c text)).
    + rewrite app_nil_l. specialize (IH (String.length old - 1)). lia.
    + cbn [String.length]. specialize (IH 0). lia.
  - specialize (IH n). lia.
Qed.

Lemma length_replace_marker_nil body text :
  (String.length (PyStr.replace (marker body) "" text) ≤ String.length text)%nat.
Proof. rewrite replace_marker. apply length_replace_scan_nil. Qed.

Lemma length_sub_blocks opn cls n text :
  (String.length (sub_blocks opn cls n text) ≤ String.length text)%nat.
Proof.
  revert n. induction text as [|c text IH]; intros n; [done |].
  cbn [sub_blocks String.length]. destruct n as [|n].
  - destruct (PyStr.startswith opn (String c text)).
    + destruct (PyStr.find cls _) as [j|].
      * specialize (IH (String.length opn + j + String.length cls - 1)). lia.
      * cbn [String.length]. specialize (IH 0). lia.
    + cbn [String.length]. specialize (IH 0). lia.
  - specialize (IH n). lia.
Qed.

Lemma length_remove_tags text k :
  (String.length (remove_tags text k) ≤ String.length text)%nat.
Proof.
  unfold remove_tags. rewrite open_marker_body, close_marker_body.
  etrans; [apply length_replace_marker_nil | apply length_replace_marker_nil].
Qed.

End IdlePasses.

(** ** The normalizer and the entries it does not read *)

Section NormalizerFacts.

Lemma filter_filter_implied {A} (f g : A → bool) (l : list A) :
  (∀ x, f x = true → g x = true) → List.filter f (List.filter g l) = List.filter f l.
Proof.
  intros Himp. induction l as [|x l IH]; [done |]. simpl.
  destruct (g x) eqn:Eg; simpl.
  - by rewrite IH.
  - destruct (f x) eqn:Ef; [|done]. apply Himp in Ef. congruence.
Qed.

Lemma last_tagged_filter {A} (type_of value_of : A → option string) tag (g : A → bool) l :
  (∀ x, type_is tag (type_of x) = true → g x = true) →
  last_tagged type_of value_of tag (List.filter g l) = last_tagged type_of value_of tag l.
Proof. intros Himp. unfold last_tagged. by rewrite filter_filter_implied. Qed.

End NormalizerFacts.

(** ** Passes of different keywords commute *)

Section Commutation.

Implicit Types (k v : string) (a : action) (t u : template).
Implicit Types (passes : list (string * action)).

Lemma tapp_assoc t u w : tapp (tapp t u) w = tapp t (tapp u w).
Proof.
  induction t as [|s rest IH|k' rest IH|k' body IHb rest IH]; cbn [tapp]; by rewrite ?IH.
Qed.

Lemma unwrap_tapp k t u : unwrap k (tapp t u) = tapp (unwrap k t) (unwrap k u).
Proof.
  induction t as [|s rest IH|k' rest IH|k' body IHb rest IH]; cbn [tapp unwrap];
    rewrite ?IH; [done.. |].
  destruct (String.eqb k k'); [by rewrite tapp_assoc | done].
Qed.

Lemma drop_block_tapp k t u :
  drop_block k (tapp t u) = tapp (drop_block k t) (drop_block k u).
Proof.
  induction t as [|s rest IH|k' rest IH|k' body IHb rest IH]; cbn [tapp drop_block];
    rewrite ?IH; [done.. |].
  by destruct (String.eqb k k').
Qed.

Lemma act_done k a : act k a Done = Done.
Proof. by destruct a as [v|[v|]|]. Qed.

Lemma act_tapp k a t u : act k a (tapp t u) = tapp (act k a t) (act k a u).
Proof.
  destruct a as [v|[v|]|]; cbn [act];
    by rewrite ?unwrap_tapp, ?subst_var_tapp, ?drop_block_tapp.
Qed.

(** Two passes of different keywords can be exchanged. *)
Lemma act_comm k a k' a' t :
  k ≠ k' → act k a (act k' a' t) = act k' a' (act k a t).
Proof.
  intros Hne.
  pose proof (proj2 (String.eqb_neq k k') Hne) as Hkk'.
  assert (String.eqb k' k = false) as Hk'k by (apply String.eqb_neq; congruence).
  induction t as [|s rest IH|k'' rest IH|k'' body IHb rest IH].
  - by rewrite !act_done.
  - by rewrite !act_text, IH.
  - rewrite (act_var k'), (act_var k).
    destruct (String.eqb_spec k' k'') as [<-|Hne'].
    + rewrite Hkk', act_var, String.eqb_refl.
      destruct a' as [v'|[v'|]|]; rewrite ?act_text, ?act_var, ?Hkk', ?IH, ?String.eqb_refl; done.
    + destruct (String.eqb_spec k k'') as [<-|Hne''].
      * destruct a as [v|[v|]|]; rewrite ?act_text, ?act_var, ?Hk'k, ?IH, ?String.eqb_refl; done.
      * rewrite !act_var, IH.
        by rewrite (proj2 (String.eqb_neq k k'')), (proj2 (String.eqb_neq k' k'')).
  - rewrite (act_block k'), (act_block k).
    destruct (String.eqb_spec k' k'') as [<-|Hne'].
    + rewrite Hkk', act_block, String.eqb_refl.
      destruct a' as [v'|o'|]; rewrite ?act_tapp, ?act_block, ?Hkk', ?IH, ?IHb, ?String.eqb_refl; done.
    + destruct (String.eqb_spec k k'') as [<-|Hne''].
      * destruct a as [v|o|]; rewrite ?act_tapp, ?act_block, ?Hk'k, ?IH, ?IHb, ?String.eqb_refl; done.
      * rewrite !act_block, IH, IHb.
        by rewrite (proj2 (String.eqb_neq k k'')), (proj2 (String.eqb_neq k' k'')).
Qed.

(** The run of a list of passes with distinct keywords does not depend on
    the order of the list. *)
Lemma run_permutation passes passes' :
  passes ≡ₚ passes' → NoDup passes.*1 → ∀ t, run passes t = run passes' t.
Proof.
  induction 1 as [|[k a] l l' Hperm IH|[k a] [k' a'] l|l l' l'' Hperm IH Hperm' IH'];
    intros Hnodup t.
  - done.
  - cbn [run]. apply IH. by apply NoDup_cons_1_2 in Hnodup.
  - cbn [run]. rewrite act_comm; [done |].
    cbn in Hnodup. apply NoDup_cons_1_1 in Hnodup. set_solver.
  - rewrite IH by done. apply IH'. by rewrite <- Hperm.
Qed.

Lemma action_for_permutation k passes passes' :
  passes ≡ₚ passes' → NoDup passes.*1 → action_for k passes = action_for k passes'.
Proof.
  induction 1 as [|[k1 a1] l l' Hperm IH|[k1 a1] [k2 a2] l|l l' l'' Hperm IH Hperm' IH'];
    intros Hnodup.
  - done.
  - cbn [action_for]. rewrite IH; [done |]. by apply NoDup_cons_1_2 in Hnodup.
  - cbn [action_for].
    destruct (String.eqb_spec k k2) as [->|]; [|done].
    destruct (String.eqb_spec k2 k1) as [->|]; [|done].
    cbn in Hnodup. apply NoDup_cons_1_1 in Hnodup. set_solver.
  - rewrite IH by done. apply IH'. by rewrite <- Hperm.
Qed.

Lemma resolvable_ext passes passes' t :
  (∀ k, action_for k passes = action_for k passes') →
  ∀ enc, resolvable passes enc t = resolvable passes' enc t.
Proof.
  intros Hsame.
  induction t as [|s rest IH|k' rest IH|k' body IHb rest IH]; intros enc;
    cbn [resolvable]; by rewrite ?Hsame, ?IH, ?IHb.
Qed.

Lemma forallb_permutation {A} (f : A → bool) (l l' : list A) :
  l ≡ₚ l' → forallb f l = true → forallb f l' = true.
Proof.
  induction 1 as [|x l l' Hperm IH|x y l|l l' l'' Hperm IH Hperm' IH']; cbn [forallb].
  - done.
  - intros [Hx Hl]%andb_prop. by rewrite Hx, IH.
  - intros [Hy [Hx Hl]%andb_prop]%andb_prop. by rewrite Hx, Hy, Hl.
  - auto.
Qed.

Lemma active_keywords_nodup (profile : gmap string py_value) :
  NoDup (active_keywords profile).
Proof.
  unfold active_keywords, field_list.
  destruct (py_truthy _); cbn; compute_done.
Qed.

End Commutation.

(** ** The sender and the directory listing *)

Section SenderFacts.

Implicit Types (user : directory_user) (users : list directory_user).

Lemma check_user_for_relevance_spec user :
  check_user_for_relevance user = true ↔ relevant_record user.
Proof.
  unfold check_user_for_relevance, relevant_record, re_match_then_any, get_str.
  cbv zeta. rewrite !andb_true_iff, !negb_eqb_true, !negb_true_iff. tauto.
Qed.

(** The loop that appends one message per employee is a map. *)
Lemma message_loop tu tt users (messages : list signature_message) :
  fold_left (message_step tu tt) users messages
  = (messages ++ map (message_for tu tt) users)%list.
Proof.
  revert messages. induction users as [|u users IH]; intros messages; cbn [fold_left map].
  - by rewrite (right_id_L [] (++)%list).
  - rewrite IH. unfold message_step at 1. unfold message_for at 2.
    rewrite technical_flag_of_profile. by rewrite <- (assoc_L (++)%list).
Qed.

Lemma page_for_app t page (seen todo : list (string * users_page)) :
  t ∉ seen.*1 → page_for t (seen ++ (t, page) :: todo) = Some page.
Proof.
  induction seen as [|[t' page'] seen IH]; intros Hnotin; cbn [page_for app].
  - by rewrite String.eqb_refl.
  - cbn in Hnotin. apply not_elem_of_cons in Hnotin as [Hne Hnotin].
    rewrite (proj2 (String.eqb_neq t t') Hne). by apply IH.
Qed.

(** The loop, started at a page of a chain, collects that page and all
    pages behind it. *)
Lemma loop_over_chain first (later seen todo : list (string * users_page)) :
  ∀ page page_token result fuel,
    later = (seen ++ todo)%list →
    NoDup later.*1 →
    paged_directory first later page_token = Return page →
    chained page todo →
    (length todo < fuel)%nat →
    get_all_employees_loop fuel (paged_directory first later) page_token result
    = Some (Return (result ++ default [] (page_users page)
                    ++ concat (map (λ p, default [] (page_users p.2)) todo))%list).
Proof.
  revert seen. induction todo as [|[t next] todo IH];
    intros seen page page_token result fuel Hlater Hnodup Hserve Hchain Hfuel;
    (destruct fuel as [|fuel]; [cbn in Hfuel; lia |]);
    cbn [get_all_employees_loop]; rewrite Hserve; cbn [chained] in Hchain.
  - rewrite Hchain. cbn. by rewrite (right_id_L [] (++)%list).
  - destruct Hchain as (Htoken & Hne & Hchain). rewrite Htoken.
    cbn [no_token]. rewrite (proj2 (String.eqb_neq t "") Hne).
    rewrite (IH (seen ++ [(t, next)])%list next).
    + cbn [map concat fst snd]. by rewrite <- !(assoc_L (++)%list).
    + by rewrite <- (assoc_L (++)%list).
    + done.
    + cbn [paged_directory]. subst later. rewrite page_for_app; [done |].
      rewrite fmap_app in Hnodup. apply NoDup_app in Hnodup as (_ & Hdisjoint & _).
      intros Hin. apply (Hdisjoint t Hin). cbn. left.
    + done.
    + cbn in Hfuel. lia.
Qed.

End SenderFacts.

(** ** Requests and handlers *)

Section RequestFacts.

Lemma logged_id {A} (body : io A) h : logged body h = body h.
Proof.
  unfold logged, try_except, io_raise, is_Exception.
  destruct (body h) as [[value|e] h']; [done |]. by destruct (exc_class e).
Qed.

Lemma listing_fails page_token (pages : list users_page) :
  ∀ (service : directory_service) e result fuel,
    answers service page_token pages (Raise e) →
    (length pages < fuel)%nat →
    get_all_employees_loop fuel service page_token result = Some (Raise e).
Proof.
  revert page_token. induction pages as [|page pages IH];
    intros page_token service e result fuel Hanswers Hfuel;
    (destruct fuel as [|fuel]; [cbn in Hfuel; lia |]);
    cbn [get_all_employees_loop]; cbn [answers] in Hanswers.
  - by rewrite Hanswers.
  - destruct Hanswers as (-> & -> & Hanswers). apply IH; [done |]. cbn in Hfuel. lia.
Qed.

End RequestFacts.

(** ** The receiver *)

Section ReceiverFacts.

Variables SHARED_DRIVE_ID SHARED_DRIVE_FOLDER_ID PROJECT_ID SECRET_NAME : string.

Implicit Types (world : services) (h : list request) (creds : credentials).

Lemma update_signature_unfold world employee_id signature h :
  let retrieval :=
    access_credentials employee_id receiver.SCOPES_PERSONAL PROJECT_ID SECRET_NAME in
  let put token :=
    gmail_put
      ("https://gmail.googleapis.com/gmail/v1/users/" +:+ employee_id
         +:+ "/settings/sendAs/" +:+ employee_id)
      ("Bearer " +:+ token) employee_id signature in
  receiver.update_signature SHARED_DRIVE_ID SHARED_DRIVE_FOLDER_ID PROJECT_ID SECRET_NAME
    world employee_id signature h
  = match world h retrieval with
    | Raise e => (Raise e, (h ++ [retrieval])%list)
    | Return creds =>
        match world (h ++ [retrieval])%list (put (token creds)) with
        | Raise e => (Raise e, (h ++ [retrieval; put (token creds)])%list)
        | Return _ =>
            ( Return true,
              (receiver.write_signature_to_drive SHARED_DRIVE_ID SHARED_DRIVE_FOLDER_ID
                 world employee_id signature creds
                 (h ++ [retrieval; put (token creds)])%list).2 )
        end
    end.
Proof.
  cbv zeta. unfold receiver.update_signature. rewrite logged_id.
  unfold io_bind at 1. unfold api.get_credentials. rewrite logged_id. unfold call at 1.
  destruct (world h _) as [creds|e]; [|done].
  unfold io_bind at 1. unfold api.update_gmail_signature. rewrite logged_id.
  unfold call at 1. rewrite <- (assoc_L (++)%list). cbn [app].
  destruct (world _ (gmail_put _ _ _ _)) as [[]|e]; [|done].
  unfold io_bind at 1. unfold try_except, io_bind at 1.
  destruct (receiver.write_signature_to_drive _ _ _ _ _ _ _) as [[file|e] h']; done.
Qed.

End ReceiverFacts.

(** ** The engine with its pattern compiled *)

Section RegularExpressions.

Implicit Types (k s u z : string) (done : list Re.piece).

(** A character without meaning in a pattern is read as a literal. *)
Lemma ordinary_character (c : ascii) :
  regex_special c = false →
  Re.is_quantifier c = false ∧ Ascii.eqb c "{" = false ∧ Ascii.eqb c "." = false
  ∧ Re.unsupported_char c = false ∧ Ascii.eqb c "}" = false.
Proof.
  destruct c as [[] [] [] [] [] [] [] []]; vm_compute; intros H;
    first [ discriminate H | repeat split ].
Qed.

Lemma parse_literal u : ∀ pos done z,
  regex_literal u = true →
  Re.parse pos done (u +:+ z) = Re.parse (pos + String.length u) (done ++ Re.literal u) z.
Proof.
  induction u as [|c u IH]; intros pos done z Hu.
  - cbn. by rewrite Nat.add_0_r, (right_id_L [] (++)%list).
  - cbn [regex_literal] in Hu. apply andb_prop in Hu as [Hc Hu].
    apply negb_true_iff, ordinary_character in Hc as (Hq & Hb & Hd & Hx & _).
    change (String c u +:+ z) with (String c (u +:+ z)).
    cbn [Re.parse]. rewrite Hq, Hb, Hd, Hx. rewrite IH by done.
    cbn [Re.literal String.length]. rewrite <- (assoc_L (++)%list). cbn [app].
    f_equal. lia.
Qed.

(** Behind an opening brace, a keyword without closing brace followed by a
    slash is no counted repetition. *)
Lemma skip_digits_keyword u z :
  PyStr.has_char "}" u = false →
  ∃ u', Re.skip_digits (u +:+ String "/" z) = u' +:+ String "/" z
        ∧ PyStr.has_char "}" u' = false.
Proof.
  induction u as [|c u IH]; intros Hu.
  - by exists "".
  - cbn [PyStr.has_char] in Hu. destruct (Ascii.eqb "}" c) eqn:Ec; [done |].
    change (String c u +:+ String "/" z) with (String c (u +:+ String "/" z)).
    cbn [Re.skip_digits]. destruct (Re.is_digit c) eqn:Ed.
    + by apply IH.
    + exists (String c u). cbn [PyStr.has_char]. by rewrite Ec.
Qed.

Lemma startswith_brace_keyword u z :
  PyStr.has_char "}" u = false → PyStr.startswith "}" (u +:+ String "/" z) = false.
Proof.
  destruct u as [|c u]; [done |]. cbn [PyStr.has_char]. intros Hu.
  destruct (Ascii.eqb "}" c) eqn:Ec; [done |].
  change (String c u +:+ String "/" z) with (String c (u +:+ String "/" z)).
  rewrite startswith_cons. apply Ascii.eqb_neq in Ec.
  by rewrite bool_decide_eq_false_2.
Qed.

Lemma no_repeat_form u z :
  PyStr.has_char "}" u = false → Re.repeat_form (u +:+ String "/" z) = false.
Proof.
  intros Hu. unfold Re.repeat_form. apply andb_false_iff. right.
  destruct (skip_digits_keyword u z Hu) as (u' & -> & Hu').
  destruct u' as [|c u']; [done |].
  change (String c u' +:+ String "/" z) with (String c (u' +:+ String "/" z)).
  destruct (Ascii.eqb c ",") eqn:Ecomma.
  - apply Ascii.eqb_eq in Ecomma as ->. cbn [PyStr.has_char] in Hu'.
    destruct (skip_digits_keyword u' z) as (u'' & -> & Hu''); [by simpl in Hu' |].
    by apply startswith_brace_keyword.
  - assert (match String c (u' +:+ String "/" z) with
            | String "," s' => Re.skip_digits s'
            | _ => String c (u' +:+ String "/" z)
            end = String c (u' +:+ String "/" z)) as ->.
    { apply Ascii.eqb_neq in Ecomma.
      destruct c as [[] [] [] [] [] [] [] []]; try done. }
    by apply (startswith_brace_keyword (String c u')).
Qed.

(** The pattern of a keyword that stands for itself compiles to the pieces
    of its two delimiters around the lazy repetition of the dot. *)
Lemma compile_block_pattern k :
  regex_literal k = true →
  Re.compile (block_pattern k) = Re.Compiled (Re.block_pieces (open_marker k) (close_marker k)).
Proof.
  intros Hk. pose proof (regex_literal_brace_free k Hk) as Hb.
  apply brace_free_spec in Hb as [_ Hclose].
  unfold Re.compile, block_pattern.
  change ("{" +:+ k +:+ "/}.*?{/" +:+ k +:+ "}")
    with (String "{" (k +:+ String "/" ("}.*?{/" +:+ k +:+ "}"))).
  cbn [Re.parse]. change (Re.is_quantifier "{") with false. cbn [Ascii.eqb Bool.eqb].
  rewrite no_repeat_form by done.
  rewrite parse_literal by done.
  cbn [Re.parse]. change ("}.*?{/" +:+ k +:+ "}") with (String "}" (String "." (String "*" (String "?" (String "{" (String "/" (k +:+ "}"))))))).
  cbn -[Re.parse Re.literal app Nat.add String.length].
  cbn [Re.parse].
  change (Re.is_quantifier "}") with false. change (Re.unsupported_char "}") with false.
  change (Re.is_quantifier ".") with false.
  change (Re.is_quantifier "*") with true. change (Re.is_quantifier "?") with true.
  change (Re.is_quantifier "{") with false.
  cbn [Ascii.eqb Bool.eqb].
  unfold Re.quantify at 1. rewrite reverse_snoc. cbn [Re.how Re.what Re.lazy Ascii.eqb Bool.eqb].
  rewrite reverse_involutive.
  unfold Re.quantify at 1. rewrite reverse_snoc. cbn [Re.how Re.what Re.lazy Ascii.eqb Bool.eqb].
  rewrite reverse_involutive.
  change (Re.repeat_form (String "/" (k +:+ "}"))) with false. cbv iota.
  change (Re.is_quantifier "/") with false. change (Re.unsupported_char "/") with false.
  cbn [Ascii.eqb Bool.eqb].
  rewrite parse_literal by done.
  cbn [Re.parse]. change (Re.is_quantifier "}") with false.
  change (Re.unsupported_char "}") with false. cbn [Ascii.eqb Bool.eqb].
  f_equal. unfold Re.block_pieces, open_marker, close_marker.
  assert (∀ a b, Re.literal (a +:+ b) = (Re.literal a ++ Re.literal b)%list) as Happ.
  { intros a b. induction a as [|x a IH]; [done |]. cbn. by rewrite IH. }
  change ("{" +:+ k +:+ "/}") with (String "{" (k +:+ "/}")).
  change ("{/" +:+ k +:+ "}") with (String "{" (String "/" (k +:+ "}"))).
  cbn [Re.literal]. rewrite !Happ. cbn [Re.literal app].
  rewrite <- !(assoc_L (++)%list). cbn [app]. done.
Qed.

(** Matching the pieces of a literal text is the test for a prefix. *)
Lemma match_literal u (pieces : list Re.piece) : ∀ s,
  Re.match_here (Re.literal u ++ pieces) s
  = if PyStr.startswith u s
    then (λ n, String.length u + n) <$> Re.match_here pieces (PyStr.drop (String.length u) s)
    else None.
Proof.
  induction u as [|c u IH]; intros s.
  - rewrite startswith_nil, drop_0. cbn. by destruct (Re.match_here pieces s).
  - cbn [Re.literal app Re.match_here Re.how Re.what]. destruct s as [|d s]; [done |].
    rewrite startswith_cons. cbn [Re.accepts]. case_bool_decide; [|done].
    cbn [andb]. rewrite IH. cbn [String.length PyStr.drop].
    destruct (PyStr.startswith u s); [|done].
    by destruct (Re.match_here pieces _).
Qed.

Lemma match_literal_only u s :
  Re.match_here (Re.literal u) s
  = if PyStr.startswith u s then Some (String.length u) else None.
Proof.
  rewrite <- (right_id_L [] (++)%list (Re.literal u)), match_literal.
  destruct (PyStr.startswith u s); [|done]. cbn. by rewrite Nat.add_0_r.
Qed.

(** The lazy repetition of the dot before a literal text stops at the first
    occurrence of the text. *)
Lemma repeat_until u : ∀ s,
  Re.repeat Re.Any true (Re.match_here (Re.literal u)) s
  = (λ j, j + String.length u) <$> PyStr.find u s.
Proof.
  induction s as [|c s IH]; cbn [Re.repeat Re.accepts]; rewrite match_literal_only.
  - cbn [PyStr.find]. by destruct (PyStr.startswith u "").
  - destruct (PyStr.startswith u (String c s)) eqn:E.
    + by rewrite find_here.
    + rewrite find_cons by done. cbn [Re.or_else]. rewrite IH.
      by destruct (PyStr.find u s).
Qed.

Lemma match_block opn cls s :
  Re.match_here (Re.block_pieces opn cls) s
  = if PyStr.startswith opn s
    then (λ j, String.length opn + (j + String.length cls))
           <$> PyStr.find cls (PyStr.drop (String.length opn) s)
    else None.
Proof.
  unfold Re.block_pieces. rewrite match_literal.
  destruct (PyStr.startswith opn s); [|done].
  cbn [app Re.match_here Re.how Re.what Re.lazy]. rewrite repeat_until.
  by destruct (PyStr.find cls _).
Qed.

(** Deleting the matches of the compiled pattern is the scan for blocks. *)
Lemma sub_block_pieces h opn' cls s : ∀ skip,
  Re.sub (Re.block_pieces (String h opn') cls) skip s
  = sub_blocks (String h opn') cls skip s.
Proof.
  induction s as [|c s IH]; intros skip; [done |].
  cbn [Re.sub sub_blocks]. destruct skip as [|n]; [|apply IH].
  rewrite match_block. destruct (PyStr.startswith _ _); [|by rewrite IH].
  destruct (PyStr.find cls _) as [j|]; cbn [fmap option_fmap option_map String.length];
    [|by rewrite IH].
  cbn [Nat.add]. rewrite IH. f_equal. lia.
Qed.

(** For a keyword that stands for itself, the source deletes the blocks as
    [remove_everything_between_tags] says. *)
Lemma remove_everything_between_tags_returns text k :
  regex_literal k = true →
  remove_everything_between_tags_outcome text k
  = Returned (remove_everything_between_tags text k).
Proof.
  intros Hk. unfold remove_everything_between_tags_outcome.
  rewrite compile_block_pattern by done.
  unfold remove_everything_between_tags.
  assert (open_marker k = String "{" (k +:+ "/}")) as -> by reflexivity.
  by rewrite sub_block_pieces.
Qed.

Lemma engine_returns text k operator (data : gmap string py_value) :
  regex_literal k = true →
  engine_outcome text k operator data
  = Returned (replace_template_variable text k operator data).
Proof.
  intros Hk. unfold engine_outcome, replace_template_variable.
  rewrite !remove_everything_between_tags_returns by done.
  repeat match goal with |- context [if ?b then _ else _] => destruct b end; done.
Qed.

Lemma apply_replacements_returns (replacements : list (string * string))
    (data : gmap string py_value) : ∀ text,
  Forall (λ r, regex_literal r.1 = true) replacements →
  apply_replacements_outcome replacements data text
  = Returned (apply_replacements replacements data text).
Proof.
  induction replacements as [|[k operator] replacements IH]; intros text Hall; [done |].
  apply Forall_cons in Hall as [Hk Hall].
  cbn [apply_replacements_outcome]. rewrite engine_returns by done.
  rewrite IH by done. done.
Qed.

Lemma assembler_returns template (profile : gmap string py_value) :
  assembler_outcome template profile = Returned (build_signature template profile).
Proof.
  unfold assembler_outcome, build_signature. cbv zeta.
  rewrite apply_replacements_returns; [done |].
  unfold replacements_for. destruct (py_truthy _); repeat constructor.
Qed.

(** An opening marker without closing marker behind it stays where it is,
    with all that follows it, and the text before it is processed as if it
    stood alone. *)
Lemma unterminated_after k tail rest :
  plain_keyword k = true →
  PyStr.contains (open_marker k) tail = false ∨ unterminated tail k = true →
  PyStr.contains (close_marker k) rest = false →
  unterminated (tail +:+ open_marker k +:+ rest) k = true.
Proof.
  intros Hplain Htail Hrest.
  pose proof (plain_literal k Hplain) as Hk.
  pose proof (literal_open_body k Hk) as Hob.
  pose proof (literal_close_body k Hk) as Hcb.
  pose proof (open_close_differ k Hplain) as Hdiff.
  assert (∀ b, PyStr.contains (close_marker k) b = false →
               PyStr.contains (close_marker k) (b +:+ open_marker k +:+ rest) = false) as Hclose.
  { intros b Hb. apply find_none_contains. rewrite close_marker_body, open_marker_body in *.
    rewrite find_quiet.
    2:{ apply quiet_marker_clean; [done.. |]. right. apply marker_starts_with_brace. }
    rewrite find_quiet.
    2:{ apply quiet_other_marker; [done.. |]. intros E. by apply Hdiff. }
    apply find_none_contains in Hrest. by rewrite Hrest. }
  assert (∀ a z, PyStr.contains (open_marker k) a = false →
                 PyStr.find (open_marker k) (a +:+ open_marker k +:+ z)
                 = Some (String.length a)) as Hfind.
  { intros a z Ha. rewrite open_marker_body in *. rewrite find_quiet.
    - rewrite find_here by apply startswith_app. cbn. by rewrite Nat.add_0_r.
    - apply quiet_marker_clean; [done.. |]. right. apply marker_starts_with_brace. }
  unfold unterminated. destruct Htail as [Hnone | Hunterminated].
  - rewrite Hfind by done. rewrite drop_drop, drop_app, drop_app. by rewrite Hrest.
  - unfold unterminated in Hunterminated.
    destruct (PyStr.find (open_marker k) tail) as [i|] eqn:Ei; [|done].
    apply negb_true_iff in Hunterminated.
    rewrite open_marker_body in Ei. unfold marker in Ei.
    change ("{" +:+ (k +:+ "/") +:+ "}") with (String "{" ((k +:+ "/") +:+ "}")) in Ei.
    apply find_split in Ei as (a & b & -> & <- & Ha).
    change (String "{" ((k +:+ "/") +:+ "}")) with (marker (k +:+ "/")) in *.
    rewrite <- open_marker_body in *.
    rewrite drop_drop, drop_app, drop_app in Hunterminated.
    rewrite !app_assoc. rewrite Hfind by done.
    rewrite drop_drop, drop_app, drop_app. by rewrite Hclose.
Qed.

Lemma delete_before_unterminated k pre rest :
  plain_keyword k = true →
  PyStr.contains (close_marker k) rest = false →
  remove_everything_between_tags (pre +:+ open_marker k +:+ rest) k
  = remove_everything_between_tags pre k +:+ open_marker k +:+ rest.
Proof.
  intros Hplain Hrest. pose proof (plain_literal k Hplain) as Hk.
  destruct (blocks_exist k pre) as (blocks & tail & -> & Hblocks & Htail).
  induction Hblocks as [|[before inner] blocks [Hbefore Hinner] Hblocks IH];
    cbn [PyStr.cat map fst snd] in *.
  - change ("" +:+ tail) with tail. rewrite (delete_none k Hk tail) by done.
    apply (delete_none k Hk). right. by apply unterminated_after.
  - unfold block_text at 1 3. cbn [fst snd]. rewrite !app_assoc.
    rewrite !(delete_block k Hk) by done. rewrite !app_assoc in IH.
    rewrite IH. by rewrite !app_assoc.
Qed.

(** A replacement of a marker works on the two sides of an opening brace
    separately: no occurrence of the marker reaches over the brace. *)
Lemma replace_marker_before_brace body new x z :
  brace_free body = true →
  PyStr.replace (marker body) new (x +:+ String "{" z)
  = PyStr.replace (marker body) new x +:+ PyStr.replace (marker body) new (String "{" z).
Proof.
  intros Hb. rewrite marker_head.
  destruct (cut_exists "{" (body +:+ "}") x) as (parts & Hne & -> & Hparts).
  rewrite <- marker_head in *.
  induction parts as [|p parts IH]; [done |].
  apply Forall_cons in Hparts as [Hp Hparts].
  destruct parts as [|q parts].
  - cbn [PyStr.join]. rewrite replace_marker_quiet.
    + by rewrite (replace_marker_none body new p).
    + apply quiet_marker_clean; eauto.
  - change (PyStr.join (marker body) (p :: q :: parts))
      with (p +:+ marker body +:+ PyStr.join (marker body) (q :: parts)).
    rewrite !app_assoc.
    rewrite !(replace_marker_quiet body new p)
      by (apply quiet_marker_clean; auto; right; apply marker_starts_with_brace).
    rewrite !replace_marker_hit. rewrite IH by done. by rewrite !app_assoc.
Qed.

Lemma replace_marker_before_marker body other new x :
  brace_free body = true →
  PyStr.replace (marker body) new (x +:+ marker other)
  = PyStr.replace (marker body) new x +:+ PyStr.replace (marker body) new (marker other).
Proof.
  intros Hb. rewrite (marker_head other). by apply replace_marker_before_brace.
Qed.

(** The delimiters of a text are removed as if a closing marker stood at
    its end. *)
Lemma remove_tags_closed_at_end k text :
  plain_keyword k = true →
  remove_tags (text +:+ close_marker k) k = remove_tags text k.
Proof.
  intros Hplain. pose proof (plain_literal k Hplain) as Hk.
  pose proof (literal_open_body k Hk) as Hob.
  pose proof (literal_close_body k Hk) as Hcb.
  pose proof (open_close_differ k Hplain) as Hdiff.
  unfold remove_tags. rewrite open_marker_body, close_marker_body.
  rewrite (replace_marker_before_marker (k +:+ "/")) by done.
  rewrite (replace_marker_none (k +:+ "/") "" (marker ("/" +:+ k))); [|done|].
  - rewrite (replace_marker_before_marker ("/" +:+ k)) by done.
    rewrite <- (app_nil_r (marker ("/" +:+ k))) at 3.
    rewrite replace_marker_hit. cbn. by rewrite app_nil_r.
  - apply quiet_contains; [|done].
    apply quiet_other_marker; [done.. |]. intros E. by apply Hdiff.
Qed.

End RegularExpressions.

(** * Part III: the claims *)

Section Claims.

Implicit Types (data profile : gmap string py_value).

Ltac profile_lookup :=
  rewrite process_user_data_unfold; cbv zeta;
  repeat case_bool_decide; try done;
  repeat first [ rewrite lookup_insert_eq | rewrite lookup_insert_ne by done ];
  try done.




(** Counterexample to C2 as stated: with two work-tagged addresses (and two
    work-tagged phones) the profile does not hold the first of them. *)
Lemma C2_first_match_refuted :
  first_tagged address_type address_formatted "work" (default [] (addresses two_offices))
    = "First Street 1" ∧
  process_user_data two_offices !! "address" = Some (PyStr "Second Street 2") ∧
  first_tagged phone_type phone_value "work" (default [] (phones two_offices)) = "111" ∧
  process_user_data two_offices !! "phone" = Some (PyStr "222").
Proof. repeat split; vm_compute; reflexivity. Qed.

(** C2, amended: for every record the profile's address is the formatted
    text of the LAST work-tagged address entry, its phone the value of the
    last work-tagged phone entry and, for a regular user, its mobile the
    value of the last mobile-tagged phone entry; each is empty when no
    entry carries the tag.  The last match wins. *)
Theorem C2_last_match_wins (data : directory_user) :
  process_user_data data !! "address"
    = Some (PyStr (last_tagged address_type address_formatted "work"
                     (default [] (addresses data)))) ∧
  process_user_data data !! "phone"
    = Some (PyStr (last_tagged phone_type phone_value "work" (default [] (phones data)))) ∧
  process_user_data data !! "mobile"
    = if bool_decide (orgUnitPath data = Some TECHNICAL_PATH) then None
      else Some (PyStr (last_tagged phone_type phone_value "mobile"
                          (default [] (phones data)))).
Proof. repeat split; profile_lookup. Qed.

(** C3: the profile's technicalUser entry is the boolean that tells whether
    the organizational-unit path is exactly the reserved path of technical
    accounts; a technical profile has exactly the keys technicalUser, email,
    lastName, address and phone, and a regular profile has these and the
    eight keys firstName, jobtitle, department, mobile, pronouns,
    gernePerDu, conditionalLineBreak and managementRole.  The set of keys
    is a function of the flag alone. *)
Theorem C3_profile_shape (data : directory_user) :
  let profile := process_user_data data in
  let technical := bool_decide (orgUnitPath data = Some TECHNICAL_PATH) in
  profile !! "technicalUser" = Some (PyBool technical) ∧
  (technical = true ↔ orgUnitPath data = Some "/Orga Accounts") ∧
  dom profile = (if technical then technical_keys else technical_keys ∪ regular_only_keys) ∧
  (∀ k, k ∈ regular_only_keys → (technical = true ↔ profile !! k = None)).
Proof.
  intros profile technical. subst profile technical.
  split; [|split; [|split]].
  - profile_lookup.
  - apply bool_decide_eq_true.
  - rewrite process_user_data_unfold. cbv zeta.
    case_bool_decide; rewrite !dom_insert_L, dom_empty_L;
      unfold technical_keys, regular_only_keys; set_solver.
  - intros k Hk. unfold regular_only_keys in Hk.
    rewrite !elem_of_union, !elem_of_singleton in Hk.
    rewrite process_user_data_unfold. cbv zeta.
    case_bool_decide; (split; [intros ? | intros Hnone]); try done;
      destruct_or!; subst k;
      repeat first [ rewrite lookup_insert_eq in * | rewrite lookup_insert_ne in * by done ];
      done.
Qed.

(** C4: for a record that is not a technical account, gernePerDu is true
    exactly when the custom attribute is the text "yes", and
    conditionalLineBreak is true unless the pronouns are empty and
    gernePerDu is false. *)
Theorem C4_derived_flags (data : directory_user)
    (Hregular : orgUnitPath data ≠ Some TECHNICAL_PATH) :
  let personal :=
    default no_personal_information
      (Personal_Information (default no_custom_schemas (customSchemas data))) in
  let pronouns := default "" (Pronouns personal) in
  ∃ gerne_per_du line_break : bool,
    process_user_data data !! "pronouns" = Some (PyStr pronouns) ∧
    process_user_data data !! "gernePerDu" = Some (PyBool gerne_per_du) ∧
    process_user_data data !! "conditionalLineBreak" = Some (PyBool line_break) ∧
    (gerne_per_du = true ↔ default "" (GernePerDu personal) = "yes") ∧
    (line_break = true ↔ ¬ (pronouns = "" ∧ gerne_per_du = false)).
Proof.
  intros personal pronouns.
  exists (String.eqb (default "" (GernePerDu personal)) "yes").
  exists (negb (String.eqb pronouns ""
                && Bool.eqb (String.eqb (default "" (GernePerDu personal)) "yes") false)).
  split; [|split; [|split; [|split]]].
  1-3: profile_lookup.
  - apply String.eqb_eq.
  - rewrite negb_true_iff, andb_false_iff, String.eqb_neq.
    destruct (String.eqb (default "" (GernePerDu personal)) "yes"); simpl.
    + split; [intros _ [_ ?]; done | intros _; by right].
    + split; [intros [?|?] [? _]; done |].
      intros H. left. intros ?. by apply H.
Qed.

(** The flags of a regular user whose attribute is "yes" and who gives no
    pronouns. *)
Lemma C4_derived_flags_witness :
  ∃ gerne_per_du line_break : bool,
    process_user_data informal_user !! "pronouns" = Some (PyStr "") ∧
    process_user_data informal_user !! "gernePerDu" = Some (PyBool gerne_per_du) ∧
    process_user_data informal_user !! "conditionalLineBreak" = Some (PyBool line_break) ∧
    (gerne_per_du = true ↔ "yes" = "yes") ∧
    (line_break = true ↔ ¬ ("" = "" ∧ gerne_per_du = false)).
Proof. apply (C4_derived_flags informal_user). vm_compute. discriminate. Defined.

(** C5: a record is relevant exactly when it is neither suspended nor
    archived, its organizational-unit path starts neither with
    "/Deactivated" nor with "/Cloud Identities", the path is neither
    "/Xternal/No drive" nor the root "/", the primary email does not
    contain "external" and is neither of the two reserved accounts.
    Missing fields count as false or as the empty text; the filter is a
    total function of the record. *)
Theorem C5_relevance_filter (user : directory_user) :
  let org_unit_path := default "" (orgUnitPath user) in
  let primary_email := default "" (primaryEmail user) in
  check_user_for_relevance user = true ↔
    default false (suspended user) = false ∧
    default false (archived user) = false ∧
    ¬ (∃ rest, org_unit_path = "/Deactivated" +:+ rest) ∧
    ¬ (∃ rest, org_unit_path = "/Cloud Identities" +:+ rest) ∧
    org_unit_path ≠ "/Xternal/No drive" ∧
    org_unit_path ≠ "/" ∧
    ¬ (∃ before after, primary_email = before +:+ "external" +:+ after) ∧
    primary_email ≠ "kaiser.soze@kaiser-x.com" ∧
    primary_email ≠ "google_tech@kaiser-x.com".
Proof.
  intros org_unit_path primary_email.
  unfold check_user_for_relevance, re_match_then_any, get_str.
  fold org_unit_path primary_email.
  rewrite !andb_true_iff, !negb_eqb_true, !negb_startswith_true, negb_contains_true,
    !negb_true_iff.
  tauto.
Qed.

(** Counterexample to C6 as stated: both templates are well formed and use
    only markers of keywords of the active field list of the profile, a
    regular user without phone who asks for the informal address.  The
    variable marker of gernePerDu is left in the signature, because its mode
    has no variable, and so is the variable marker of phone outside a block,
    because the value is empty. *)
Lemma C6_markers_left_unresolved :
  build_signature (render_template (Text "Du? " (Var "gernePerDu" Done))) sample_profile
    = "Du? {gernePerDu}" ∧
  PyStr.contains (var_marker "gernePerDu") "Du? {gernePerDu}" = true ∧
  build_signature (render_template (Text "Phone: " (Var "phone" Done))) sample_profile
    = "Phone: {phone}" ∧
  PyStr.contains (var_marker "phone") "Phone: {phone}" = true.
Proof. repeat split; vm_compute; reflexivity. Qed.

(** C6, amended: for every profile and every template that the passes of
    the assembler resolve (literal text without opening brace; blocks
    properly nested, none inside a block of its own keyword, and only for
    keywords of the active field list whose mode is conditional; variable
    markers only for company, web and keywords of the active field list
    whose pass fills them with a value without opening brace, or inside a
    block of their keyword that the pass deletes), the signature holds no
    opening brace at all, hence no variable, opening or closing marker of
    any keyword. *)
Theorem C6_resolved_signature_has_no_marker t profile
    (Hresolvable : resolvable (passes_of profile) [] t = true) :
  let signature := build_signature (render_template t) profile in
  PyStr.has_char "{" signature = false ∧
  ∀ keyword,
    PyStr.contains (var_marker keyword) signature = false ∧
    PyStr.contains (open_marker keyword) signature = false ∧
    PyStr.contains (close_marker keyword) signature = false.
Proof.
  intros signature. subst signature. rewrite build_signature_run.
  destruct (run_template (passes_of profile) (passes_of_plain profile) t Hresolvable)
    as [-> Hdone].
  apply resolved_no_brace in Hdone.
  split; [done |]. intros keyword.
  rewrite var_marker_body, open_marker_body, close_marker_body.
  auto using no_brace_no_marker.
Qed.

(** The sample template is resolved for the sample profile. *)
Lemma C6_resolved_signature_has_no_marker_witness :
  PyStr.has_char "{" (build_signature (render_template sample_template) sample_profile) = false.
Proof.
  apply (C6_resolved_signature_has_no_marker sample_template sample_profile).
  vm_compute. reflexivity.
Defined.

(** C7: the assembler runs the engine once per entry of the fixed field
    list, in its order: lastName, address, phone, email for every profile,
    followed for a profile that is not technical by firstName, jobtitle,
    managementRole, pronouns, gernePerDu, conditionalLineBreak, mobile,
    each in its declared mode; whatever the shape of the profile, it then
    substitutes the company name for {company} and the website for {web},
    in this order, last.  For the profile of a directory record the
    technical case is the case of the reserved organizational-unit path. *)
Theorem C7_field_list_order (template : string) :
  (∀ profile,
     build_signature template profile =
       global_passes
         (if py_truthy (dict_get profile "technicalUser")
          then common_passes profile template
          else regular_passes profile (common_passes profile template))) ∧
  (∀ user : directory_user,
     build_signature template (process_user_data user) =
       global_passes
         (if bool_decide (orgUnitPath user = Some TECHNICAL_PATH)
          then common_passes (process_user_data user) template
          else regular_passes (process_user_data user)
                 (common_passes (process_user_data user) template))).
Proof.
  assert (∀ profile,
            build_signature template profile =
              global_passes
                (if py_truthy (dict_get profile "technicalUser")
                 then common_passes profile template
                 else regular_passes profile (common_passes profile template))) as Hlist.
  { intros profile. unfold build_signature, replacements_for.
    destruct (py_truthy (dict_get profile "technicalUser")); reflexivity. }
  split; [exact Hlist |].
  intros user. by rewrite Hlist, technical_flag_of_profile.
Qed.

(** C8: with the template "Hi {firstName}, {phone/}Call me: {phone}{/phone}"
    and first name Ana, the pass for phone (conditional block with value)
    followed by the pass for firstName (substitution) gives "Hi Ana, " when
    the phone is empty, and "Hi Ana, Call me: 123" when the phone is 123. *)
Theorem C8_scenarios :
  scenario_render "" = "Hi Ana, " ∧ scenario_render "123" = "Hi Ana, Call me: 123".
Proof. split; vm_compute; reflexivity. Qed.







End Claims.

(** * Part IV: further properties of the code *)

Section EngineOnTexts.

Implicit Types (data profile : gmap string py_value).

(** X1: a pass for a keyword whose markers do not occur in the text gives
    the text back: in the substitution mode when the variable marker is
    absent, in the mode for blocks without variable when the two delimiters
    are absent, and in the mode for blocks with variable when all three
    markers are absent.  This holds for every value of the keyword in the
    profile, present or not. *)
Theorem X1_pass_without_marker_is_identity
    (text keyword : string) data (Hk : regex_literal keyword = true) :
  (PyStr.contains (var_marker keyword) text = false →
   render text keyword Substitute data = text) ∧
  (PyStr.contains (open_marker keyword) text = false →
   PyStr.contains (close_marker keyword) text = false →
   render text keyword ConditionalBlockOnly data = text) ∧
  (marker_free keyword text = true →
   render text keyword ConditionalBlockWithValue data = text).
Proof.
  pose proof (regex_literal_brace_free keyword Hk) as Hb.
  split; [|split].
  - intros Hv. rewrite render_substitute, var_marker_body in *.
    by apply replace_marker_none.
  - intros Ho Hc. rewrite render_block_only.
    destruct (py_is_True _); [by apply remove_tags_none | apply delete_none; auto].
  - intros Hfree. rewrite render_is_pass_text. by apply pass_text_idle.
Qed.

(** A text about the weather holds no marker of phone. *)
Lemma X1_pass_without_marker_is_identity_witness :
  render "Sunny, {mobile/}12{/mobile} degrees" "phone" ConditionalBlockWithValue
    {[ "phone" := PyStr "123" ]}
  = "Sunny, {mobile/}12{/mobile} degrees".
Proof.
  apply (X1_pass_without_marker_is_identity "Sunny, {mobile/}12{/mobile} degrees" "phone"
           {[ "phone" := PyStr "123" ]} eq_refl).
  reflexivity.
Defined.

(** X2: the substitution mode replaces every variable marker of the keyword
    by the text form of its value, and by the empty text when the profile
    has no entry for the keyword: a text cut at the variable markers comes
    back with the value at every cut, so for a missing entry the markers
    simply disappear. *)
Theorem X2_substitute_every_marker
    (keyword : string) data (parts : list string)
    (Hk : brace_free keyword = true)
    (Hcut : cut_at (var_marker keyword) parts) :
  render (PyStr.join (var_marker keyword) parts) keyword Substitute data
  = PyStr.join (match data !! keyword with Some v => py_str v | None => "" end) parts.
Proof.
  rewrite render_substitute. unfold cut_at in Hcut. rewrite var_marker_body in *.
  rewrite replace_join by done. unfold dict_get_or. by destruct (data !! keyword).
Qed.

(** Two markers of a keyword that the profile does not hold. *)
Lemma X2_substitute_every_marker_witness :
  render "Dr. {title} Lee ({title})" "title" Substitute ∅ = "Dr.  Lee ()".
Proof.
  pose proof (X2_substitute_every_marker "title" ∅ ["Dr. "; " Lee ("; ")"] eq_refl
                ltac:(repeat constructor)) as H.
  exact H.
Defined.

(** X3: a pass that keeps or deletes blocks without substituting never
    makes the text longer: the mode for blocks without variable for every
    value, and the mode for blocks with variable for a falsy value. *)
Theorem X3_block_passes_never_lengthen
    (text keyword : string) data (Hk : regex_literal keyword = true) :
  (String.length (render text keyword ConditionalBlockOnly data) ≤ String.length text)%nat ∧
  (py_truthy (dict_get data keyword) = false →
   (String.length (render text keyword ConditionalBlockWithValue data) ≤ String.length text)%nat).
Proof.
  split.
  - rewrite render_block_only. destruct (py_is_True _).
    + apply length_remove_tags.
    + apply length_sub_blocks.
  - intros Hfalsy. rewrite render_with_value, Hfalsy. apply length_sub_blocks.
Qed.

(** A template of nineteen characters and a profile without phone. *)
Lemma X3_block_passes_never_lengthen_witness :
  (String.length (render "a{phone/}b{/phone}c" "phone" ConditionalBlockOnly ∅)
   ≤ String.length "a{phone/}b{/phone}c")%nat ∧
  (py_truthy (dict_get ∅ "phone") = false →
   (String.length (render "a{phone/}b{/phone}c" "phone" ConditionalBlockWithValue ∅)
    ≤ String.length "a{phone/}b{/phone}c")%nat).
Proof. exact (X3_block_passes_never_lengthen "a{phone/}b{/phone}c" "phone" ∅ eq_refl). Defined.

(** X4: the assembler is driven by its field list and not by the markers
    in the template: a template without marker of any keyword of the active
    field list of the profile, company and web included, is returned as it
    is.  In particular the markers of the fields of regular users survive in
    the signature of a technical profile. *)
Theorem X4_assembler_touches_active_keywords_only
    (template : string) profile
    (Hfree : Forall (λ k, marker_free k template = true) (active_keywords profile)) :
  build_signature template profile = template.
Proof.
  rewrite build_signature_run. apply run_text_idle.
  pose proof (active_keywords_plain profile) as Hplain.
  rewrite <- passes_of_keys in Hfree, Hplain.
  rewrite Forall_fmap in Hfree, Hplain.
  rewrite Forall_forall in *. intros p Hp. split.
  - apply plain_literal. by apply Hplain.
  - by apply Hfree.
Qed.

(** A technical profile and a template that uses fields of regular users
    only. *)
Lemma X4_assembler_touches_active_keywords_only_witness :
  build_signature "{firstName}, {mobile/}M {mobile}{/mobile}"
    {[ "technicalUser" := PyBool true; "phone" := PyStr "123" ]}
  = "{firstName}, {mobile/}M {mobile}{/mobile}".
Proof.
  apply (X4_assembler_touches_active_keywords_only
           "{firstName}, {mobile/}M {mobile}{/mobile}"
           {[ "technicalUser" := PyBool true; "phone" := PyStr "123" ]}).
  vm_compute. repeat constructor.
Defined.

End EngineOnTexts.

Section NormalizerOnRecords.

Implicit Types (data : directory_user).

(** X5: of the organizations of a record only the first entry is read:
    any entries behind it can be dropped without changing the profile, and
    for a technical account the organizations are not read at all. *)
Theorem X5_first_organization_only data :
  process_user_data data
    = process_user_data (with_organizations data (take 1 <$> organizations data)) ∧
  (orgUnitPath data = Some TECHNICAL_PATH →
   ∀ orgs, process_user_data (with_organizations data orgs) = process_user_data data).
Proof.
  split.
  - rewrite !process_user_data_unfold. cbn.
    destruct (organizations data) as [[|o orgs]|]; done.
  - intros Htech orgs. rewrite !process_user_data_unfold. cbn.
    by rewrite !bool_decide_eq_true_2.
Qed.

(** X6: phone entries tagged neither work nor mobile and address entries
    not tagged work (entries without tag included) never reach the profile:
    the record without them has the same profile. *)
Theorem X6_other_contact_tags_ignored data :
  process_user_data (prune_contacts data) = process_user_data data.
Proof.
  rewrite !process_user_data_unfold. cbn.
  assert (∀ tag, tag = "work" ∨ tag = "mobile" →
            last_tagged phone_type phone_value tag
              (default []
                 (List.filter (λ e, type_is "work" (phone_type e)
                                    || type_is "mobile" (phone_type e)) <$> phones data))
            = last_tagged phone_type phone_value tag (default [] (phones data))) as Hphones.
  { intros tag Htag. destruct (phones data) as [l|]; [|done]. cbn.
    apply last_tagged_filter. intros x Hx.
    destruct Htag as [-> | ->]; rewrite Hx; [done | apply orb_true_r]. }
  assert (last_tagged address_type address_formatted "work"
            (default [] (List.filter (λ e, type_is "work" (address_type e)) <$> addresses data))
          = last_tagged address_type address_formatted "work" (default [] (addresses data)))
    as Haddresses.
  { destruct (addresses data) as [l|]; [|done]. cbn. by apply last_tagged_filter. }
  rewrite Haddresses, !Hphones by auto. done.
Qed.

(** X7: the profile of a record holds every keyword of its own field list,
    with a text as value when the mode substitutes the value and with a
    boolean when the mode is the one for blocks without variable: the
    assembler never falls back to a default and never prints a value that
    is not a text. *)
Theorem X7_profile_holds_its_field_list data (keyword : string) (m : mode) :
  (keyword, m) ∈ field_list (process_user_data data) →
  match m with
  | ConditionalBlockOnly => ∃ b, process_user_data data !! keyword = Some (PyBool b)
  | Substitute | ConditionalBlockWithValue =>
      ∃ s, process_user_data data !! keyword = Some (PyStr s)
  end.
Proof.
  unfold field_list. rewrite technical_flag_of_profile.
  rewrite process_user_data_unfold. cbv zeta.
  case_bool_decide; cbn [app];
    rewrite ?elem_of_cons, elem_of_nil; intros Hin;
    destruct_or!; try done; simplify_eq;
    repeat first [ rewrite lookup_insert_eq | rewrite lookup_insert_ne by done ];
    eauto.
Qed.

(** The last name of the user with two offices. *)
Lemma X7_profile_holds_its_field_list_witness :
  ∃ s, process_user_data two_offices !! "lastName" = Some (PyStr s).
Proof.
  apply (X7_profile_holds_its_field_list two_offices "lastName" Substitute).
  vm_compute. repeat constructor.
Defined.

(** X8: for a regular user the block of conditionalLineBreak is deleted
    exactly when the block of pronouns and the block of gernePerDu are both
    deleted; it is kept as soon as one of the two is kept. *)
Theorem X8_line_break_follows_its_blocks data
    (Hregular : orgUnitPath data ≠ Some TECHNICAL_PATH) :
  let profile := process_user_data data in
  action_of ConditionalBlockOnly "conditionalLineBreak" profile = Delete ↔
    action_of ConditionalBlockWithValue "pronouns" profile = Delete
    ∧ action_of ConditionalBlockOnly "gernePerDu" profile = Delete.
Proof.
  intros profile. subst profile. unfold action_of, dict_get.
  rewrite process_user_data_unfold. cbv zeta.
  rewrite bool_decide_eq_false_2 by done.
  repeat first [ rewrite lookup_insert_eq | rewrite lookup_insert_ne by done ].
  unfold default, id. cbn [py_truthy py_is_True py_str].
  destruct (String.eqb _ ""); destruct (String.eqb _ "yes"); cbn;
    (split; [intros H | intros [H1 H2]]); done.
Qed.

(** A regular user who gives no pronouns and asks for the informal
    address: the line break is kept. *)
Lemma X8_line_break_follows_its_blocks_witness :
  action_of ConditionalBlockOnly "conditionalLineBreak" (process_user_data informal_user)
    = Delete ↔
  action_of ConditionalBlockWithValue "pronouns" (process_user_data informal_user) = Delete
  ∧ action_of ConditionalBlockOnly "gernePerDu" (process_user_data informal_user) = Delete.
Proof.
  apply (X8_line_break_follows_its_blocks informal_user). vm_compute. discriminate.
Defined.

End NormalizerOnRecords.

Section OrderOfPasses.

Implicit Types (profile : gmap string py_value).

(** X9: the order of the passes does not matter on a well-formed template
    that the passes of the assembler resolve.  Such a template has literal
    text without opening brace; its blocks are properly nested, none inside
    a block of its own keyword, and only for keywords of the active field
    list whose mode is conditional; its variable markers stand only where
    the pass of their keyword resolves them (company, web and the keywords
    of the substituting mode; keywords of the mode with variable whose value
    is truthy; or inside a block of their own keyword that the pass
    deletes); and the values substituted hold no opening brace.  On such a
    template, running the passes of the profile in any other order gives the
    signature that the assembler builds. *)
Theorem X9_pass_order_is_immaterial
    (t : template) profile (order : list (string * action))
    (Horder : order ≡ₚ passes_of profile)
    (Hresolvable : resolvable (passes_of profile) [] t = true) :
  run_text order (render_template t) = build_signature (render_template t) profile.
Proof.
  rewrite build_signature_run.
  pose proof (active_keywords_nodup profile) as Hnodup.
  rewrite <- passes_of_keys in Hnodup.
  destruct (run_template (passes_of profile) (passes_of_plain profile) t Hresolvable)
    as [-> _].
  destruct (run_template order) with (t := t) as [-> _].
  - symmetry in Horder. apply (forallb_permutation _ _ _ Horder), passes_of_plain.
  - rewrite <- Hresolvable. apply resolvable_ext. intros k.
    symmetry. by apply action_for_permutation.
  - f_equal. symmetry. by apply run_permutation.
Qed.

(** The passes of the sample profile in reverse order, globals first. *)
Lemma X9_pass_order_is_immaterial_witness :
  run_text (reverse (passes_of sample_profile)) (render_template sample_template)
  = build_signature (render_template sample_template) sample_profile.
Proof.
  apply (X9_pass_order_is_immaterial sample_template sample_profile).
  - apply reverse_Permutation.
  - vm_compute. reflexivity.
Defined.

End OrderOfPasses.

Section SenderAndDirectory.

Implicit Types (user : directory_user) (users : list directory_user).

(** X10: the filter of the sender returns the relevant users of its input,
    each as often as it occurs and in the order of the input: a user is
    returned exactly when it is in the input and not suspended, not
    archived, outside the two deactivated branches, outside the reserved
    path and the root, and neither external nor a reserved account;
    filtering pages of users one by one or together is the same, and
    filtering twice changes nothing. *)
Theorem X10_remove_irrelevant_users users :
  (∀ user, user ∈ remove_irrelevant_users users ↔ user ∈ users ∧ relevant_record user) ∧
  remove_irrelevant_users users `sublist_of` users ∧
  (∀ more, remove_irrelevant_users (users ++ more)
           = (remove_irrelevant_users users ++ remove_irrelevant_users more)%list) ∧
  remove_irrelevant_users (remove_irrelevant_users users) = remove_irrelevant_users users.
Proof.
  unfold remove_irrelevant_users. split; [|split; [|split]].
  - intros user. rewrite !list_elem_of_In, List.filter_In, check_user_for_relevance_spec.
    done.
  - induction users as [|u users IH]; [done |]. cbn.
    destruct (check_user_for_relevance u); by constructor.
  - intros more. apply List.filter_app.
  - induction users as [|u users IH]; [done |]. cbn.
    destruct (check_user_for_relevance u) eqn:E; [|done].
    cbn. by rewrite E, IH.
Qed.

(** X11: between the directory and the queue [main] builds exactly one
    message per relevant employee, in the order of the directory; the
    message carries the primary email of the record (none, if the record has
    none) and the signature built from the profile of the record, with the
    template for technical users when the organizational-unit path is the
    reserved one and with the template for regular users otherwise. *)
Theorem X11_one_message_per_relevant_employee
    (html_template_user html_template_technical_user : string) users :
  main_messages html_template_user html_template_technical_user users
  = map (message_for html_template_user html_template_technical_user)
      (remove_irrelevant_users users).
Proof. unfold main_messages. by rewrite message_loop. Qed.

(** X12: no message is ever built for one of the two reserved accounts, for
    an address that contains "external", or for a suspended or archived
    record, whatever the directory returns. *)
Theorem X12_no_message_for_reserved_accounts
    (html_template_user html_template_technical_user : string) users
    (m : signature_message)
    (Hm : m ∈ main_messages html_template_user html_template_technical_user users) :
  employee_id m ≠ Some "kaiser.soze@kaiser-x.com" ∧
  employee_id m ≠ Some "google_tech@kaiser-x.com" ∧
  (∀ e, employee_id m = Some e → PyStr.contains "external" e = false) ∧
  ∃ user, user ∈ users ∧ m = message_for html_template_user html_template_technical_user user
          ∧ default false (suspended user) = false
          ∧ default false (archived user) = false.
Proof.
  unfold main_messages in Hm. rewrite message_loop in Hm. cbn in Hm.
  apply list_elem_of_fmap in Hm as (user & -> & Huser).
  unfold remove_irrelevant_users in Huser.
  apply list_elem_of_In, List.filter_In in Huser as [Hin Hrel].
  apply check_user_for_relevance_spec in Hrel
    as (Hs & Ha & _ & _ & _ & _ & Hext & Hsoze & Htech).
  cbn [message_for employee_id]. cbv zeta in *.
  split; [|split; [|split]].
  - intros E. rewrite E in Hsoze. by apply Hsoze.
  - intros E. rewrite E in Htech. by apply Htech.
  - intros e E. by rewrite E in Hext.
  - exists user. by rewrite list_elem_of_In.
Qed.

(** The message for a directory of one regular user. *)
Lemma X12_no_message_for_reserved_accounts_witness :
  employee_id (message_for "Hi {firstName}" "Hi {lastName}" informal_user)
    ≠ Some "kaiser.soze@kaiser-x.com".
Proof.
  apply (X12_no_message_for_reserved_accounts "Hi {firstName}" "Hi {lastName}"
           [ informal_user ]).
  vm_compute. apply list_elem_of_In. left. reflexivity.
Defined.

(** X13: for a directory that serves its users in pages chained by
    distinct tokens, the listing returns the users of all pages in the order
    of the pages, provided the loop is given one round per page; a last page
    with the empty text as token ends the listing like a page without
    token. *)
Theorem X13_listing_collects_all_pages
    (first : users_page) (later : list (string * users_page)) (fuel : nat)
    (Hchain : chained first later)
    (Hdistinct : NoDup later.*1)
    (Hfuel : (length later < fuel)%nat) :
  get_all_employees fuel (paged_directory first later)
  = Some (Return (all_users first later)).
Proof.
  unfold get_all_employees, all_users.
  by rewrite (loop_over_chain first later [] later first None [] fuel).
Qed.

(** Three pages, the last one with an empty token and without users. *)
Lemma X13_listing_collects_all_pages_witness :
  get_all_employees 3 (paged_directory first_page three_pages)
  = Some (Return [two_offices; informal_user]).
Proof.
  apply (X13_listing_collects_all_pages first_page three_pages 3).
  - repeat split; discriminate.
  - cbn. compute_done.
  - cbn. lia.
Defined.

(** X14: the listing has no bound of its own: against a directory that
    answers every request with a page and a token that is not empty, no
    number of rounds ends the loop. *)
Theorem X14_listing_needs_a_last_page
    (service : directory_service) (fuel : nat)
    (Hendless : ∀ page_token, ∃ page,
        service page_token = Return page ∧ no_token (nextPageToken page) = false) :
  get_all_employees fuel service = None.
Proof.
  unfold get_all_employees. generalize (@None string) (@nil directory_user).
  induction fuel as [|fuel IH]; intros page_token result; [done |].
  cbn [get_all_employees_loop].
  destruct (Hendless page_token) as (page & -> & ->). apply IH.
Qed.

(** A thousand rounds against the directory that always says "next". *)
Lemma X14_listing_needs_a_last_page_witness :
  get_all_employees 1000 endless_directory = None.
Proof.
  apply (X14_listing_needs_a_last_page endless_directory 1000).
  intros page_token. eexists. split; reflexivity.
Defined.

End SenderAndDirectory.

Section Receiver.

Variables SHARED_DRIVE_ID SHARED_DRIVE_FOLDER_ID PROJECT_ID SECRET_NAME : string.

Implicit Types (world : services) (h : list request) (creds : credentials).

(** X15: an exception of any request of the listing ends the listing with
    that exception; the users of the pages retrieved before are not
    returned. *)
Theorem X15_failed_request_fails_the_listing
    (service : directory_service) (pages : list users_page) (e : py_exception)
    (fuel : nat)
    (Hanswers : answers service None pages (Raise e))
    (Hfuel : (length pages < fuel)%nat) :
  get_all_employees fuel service = Some (Raise e).
Proof. by apply (listing_fails None pages). Qed.

(** The second request fails after a first page with one user. *)
Lemma X15_failed_request_fails_the_listing_witness :
  get_all_employees 2 failing_directory
  = Some (Raise {| exc_class := HttpError; exc_text := "Quota exceeded" |}).
Proof.
  apply (X15_failed_request_fails_the_listing failing_directory [first_page]).
  - cbn. repeat split.
  - cbn. lia.
Defined.

(** X16: writing a signature to the drive lists the files named after the
    employee and then sends exactly one further request, or none: if the
    listing fails or finds more than one file, nothing is written and the
    exception is raised; if it finds one file with an id, that file is
    updated and its id returned (or the exception of the update raised); if
    it finds no file, or one without id, a file is created and its id
    returned, and a failure of the creation is raised only if it is an
    [HttpError] or no [Exception], and returned as [None] otherwise. *)
Theorem X16_drive_requests_of_a_write world employee_id signature creds h :
  let filename := employee_id +:+ ".html" in
  let listing :=
    files_list
      ("name='" +:+ filename +:+ "' and trashed=false and mimeType='text/html' and '"
         +:+ SHARED_DRIVE_FOLDER_ID +:+ "' in parents")
      SHARED_DRIVE_ID creds in
  let create :=
    files_create filename SHARED_DRIVE_ID SHARED_DRIVE_FOLDER_ID signature creds in
  let created :=
    ( match world (h ++ [listing])%list create with
      | Return file => Return (file_id file)
      | Raise e =>
          if is_HttpError e || negb (is_Exception e) then Raise e else Return None
      end,
      (h ++ [listing; create])%list ) in
  receiver.write_signature_to_drive SHARED_DRIVE_ID SHARED_DRIVE_FOLDER_ID world
    employee_id signature creds h
  = match world h listing with
    | Raise e => (Raise e, (h ++ [listing])%list)
    | Return results =>
        match default [] results with
        | [] => created
        | [file] =>
            match file_id file with
            | Some i =>
                if String.eqb i "" then created
                else
                  let update := files_update i signature creds in
                  ( match world (h ++ [listing])%list update with
                    | Return _ => Return (Some i)
                    | Raise e => Raise e
                    end,
                    (h ++ [listing; update])%list )
            | None => created
            end
        | _ =>
            ( Raise {| exc_class := OtherException;
                       exc_text := "There are duplicate files existing already" |},
              (h ++ [listing])%list )
        end
    end.
Proof.
  cbv zeta. unfold receiver.write_signature_to_drive. rewrite logged_id.
  unfold io_bind at 1. unfold api.check_if_file_exists_in_drive. rewrite logged_id.
  unfold io_bind at 1. unfold call at 1.
  set (listing := files_list _ _ _).
  assert (Hcreated :
    io_bind
      (api.create_file_in_drive world (employee_id +:+ ".html") SHARED_DRIVE_ID
         SHARED_DRIVE_FOLDER_ID signature creds) (λ file_id, io_ret file_id)
      (h ++ [listing])%list
    = ( match world (h ++ [listing])%list
                (files_create (employee_id +:+ ".html") SHARED_DRIVE_ID
                   SHARED_DRIVE_FOLDER_ID signature creds) with
        | Return file => Return (file_id file)
        | Raise e =>
            if is_HttpError e || negb (is_Exception e) then Raise e else Return None
        end,
        (h ++ [listing; files_create (employee_id +:+ ".html") SHARED_DRIVE_ID
                          SHARED_DRIVE_FOLDER_ID signature creds])%list )).
  { unfold io_bind, api.create_file_in_drive, try_except, io_bind, call, io_ret, io_raise.
    rewrite <- (assoc_L (++)%list). cbn [app].
    destruct (world _ _) as [file|e]; [done |].
    unfold is_HttpError, is_Exception. by destruct (exc_class e). }
  destruct (world h listing) as [results|e]; [|done].
  destruct (default [] results) as [|file [|file' files]]; cbn [io_ret io_raise].
  - cbn [is_file_id negb]. apply Hcreated.
  - destruct (file_id file) as [i|]; cbn [is_file_id negb]; [|apply Hcreated].
    destruct (String.eqb i ""); cbn [negb]; [apply Hcreated |].
    unfold io_bind. unfold api.update_file_in_drive. rewrite logged_id.
    unfold call, io_ret. unfold default, id. rewrite <- (assoc_L (++)%list). cbn [app].
    by destruct (world (h ++ [listing])%list (files_update i signature creds)).
  - done.
Qed.

(** X17: updating a signature asks for the credentials of the employee,
    then puts the signature into the Gmail settings with the token of these
    credentials, and only then writes to the drive.  A failure of one of the
    first two requests is raised and ends the update, so that nothing is
    written to the drive after a failed Gmail update; once both succeed the
    update returns [True] whatever the drive does. *)
Theorem X17_gmail_first_drive_best_effort world employee_id signature h :
  let retrieval :=
    access_credentials employee_id receiver.SCOPES_PERSONAL PROJECT_ID SECRET_NAME in
  let put token :=
    gmail_put
      ("https://gmail.googleapis.com/gmail/v1/users/" +:+ employee_id
         +:+ "/settings/sendAs/" +:+ employee_id)
      ("Bearer " +:+ token) employee_id signature in
  receiver.update_signature SHARED_DRIVE_ID SHARED_DRIVE_FOLDER_ID PROJECT_ID SECRET_NAME
    world employee_id signature h
  = match world h retrieval with
    | Raise e => (Raise e, (h ++ [retrieval])%list)
    | Return creds =>
        match world (h ++ [retrieval])%list (put (token creds)) with
        | Raise e => (Raise e, (h ++ [retrieval; put (token creds)])%list)
        | Return _ =>
            ( Return true,
              (receiver.write_signature_to_drive SHARED_DRIVE_ID SHARED_DRIVE_FOLDER_ID
                 world employee_id signature creds
                 (h ++ [retrieval; put (token creds)])%list).2 )
        end
    end.
Proof. apply update_signature_unfold. Qed.

End Receiver.

Section Endpoint.

Variables SHARED_DRIVE_ID SHARED_DRIVE_FOLDER_ID PROJECT_ID SECRET_NAME : string.

Implicit Types (world : services) (h : list request)
  (decode : string → py_result receiver.SignatureMessage).

(** X18: the endpoint ends in one of three ways.  It answers "success" with
    the employee of the message, and then the message was decoded and the
    update of the signature returned; or it raises an [HTTPException] with
    status 400 or 500; or it lets pass an exception that is no [Exception].
    No other exception leaves it, and a message that cannot be decoded
    causes no request. *)
Theorem X18_endpoint_outcomes world decode message_data h :
  let out :=
    receiver.receive_pubsub_message SHARED_DRIVE_ID SHARED_DRIVE_FOLDER_ID
       PROJECT_ID SECRET_NAME world decode
      message_data h in
  match out.1 with
  | Return response =>
      receiver.status response = "success" ∧
      ∃ m, decode message_data = Return m ∧
           receiver.response_employee_id response = receiver.employee_id m ∧
           receiver.update_signature SHARED_DRIVE_ID SHARED_DRIVE_FOLDER_ID PROJECT_ID
             SECRET_NAME world (receiver.employee_id m) (receiver.signature m) h
           = (Return true, out.2)
  | Raise e =>
      (exc_class e = HTTPException 400 ∨ exc_class e = HTTPException 500 ∨
       exc_class e = NotAnException) ∧
      (∀ e', decode message_data = Raise e' → out.2 = h)
  end.
Proof.
  cbv zeta. unfold receiver.receive_pubsub_message, try_except, io_bind.
  destruct (decode message_data) as [m|e] eqn:Hdecode.
  - pose proof (update_signature_unfold SHARED_DRIVE_ID SHARED_DRIVE_FOLDER_ID
                  PROJECT_ID SECRET_NAME world (receiver.employee_id m)
                  (receiver.signature m) h) as Hupdate.
    cbv zeta in Hupdate.
    destruct (receiver.update_signature _ _ _ _ _ _ _ _) as [[b|e] h'] eqn:E.
    + cbn. split; [done |]. exists m. repeat split.
      destruct (world h _) as [creds|e]; [|done].
      destruct (world _ (gmail_put _ _ _ _)) as [[]|e]; [|done].
      rewrite E. by inversion Hupdate.
    + unfold is_JSONDecodeError, is_KeyError, is_Exception, io_raise.
      destruct (exc_class e) eqn:Hclass; cbn; rewrite ?Hclass; (split; [tauto | done]).
  - unfold is_JSONDecodeError, is_KeyError, is_Exception, io_raise.
    destruct (exc_class e) eqn:Hclass; cbn; rewrite ?Hclass; (split; [tauto | done]).
Qed.

(** X19: once the message is decoded, the credentials are retrieved and the
    Gmail settings are updated, the endpoint answers "success", whatever
    happens at the drive: no failure of the drive, of whatever class, reaches
    the sender of the message. *)
Theorem X19_drive_failure_is_no_failure world decode message_data h
    (m : receiver.SignatureMessage) (creds : credentials)
    (Hdecode : decode message_data = Return m)
    (Hcredentials :
       world h (access_credentials (receiver.employee_id m) receiver.SCOPES_PERSONAL
                  PROJECT_ID SECRET_NAME) = Return creds)
    (Hgmail :
       world
         (h ++ [access_credentials (receiver.employee_id m) receiver.SCOPES_PERSONAL
                  PROJECT_ID SECRET_NAME])%list
         (gmail_put
            ("https://gmail.googleapis.com/gmail/v1/users/" +:+ receiver.employee_id m
               +:+ "/settings/sendAs/" +:+ receiver.employee_id m)
            ("Bearer " +:+ token creds) (receiver.employee_id m) (receiver.signature m))
       = Return ()) :
  (receiver.receive_pubsub_message SHARED_DRIVE_ID SHARED_DRIVE_FOLDER_ID
       PROJECT_ID SECRET_NAME world decode
     message_data h).1
  = Return {| receiver.status := "success";
              receiver.response_employee_id := receiver.employee_id m |}.
Proof.
  unfold receiver.receive_pubsub_message.
  unfold try_except, io_bind at 1. rewrite Hdecode.
  unfold io_bind at 1. rewrite update_signature_unfold. cbv zeta.
  by rewrite Hcredentials, Hgmail.
Qed.

(** X20: the handlers of the endpoint cover the update as well as the
    decoding: a [JSONDecodeError] raised while the credentials are retrieved
    or while the answer of Gmail is read is reported with status 400 and
    the detail "Invalid JSON in message", although the message was decoded
    without error; after it, nothing is written to the drive. *)
Theorem X20_invalid_json_is_not_always_the_message world decode message_data h
    (m : receiver.SignatureMessage) (e : py_exception)
    (Hdecode : decode message_data = Return m)
    (Hclass : is_JSONDecodeError e = true)
    (Hraised :
       let retrieval :=
         access_credentials (receiver.employee_id m) receiver.SCOPES_PERSONAL
           PROJECT_ID SECRET_NAME in
       world h retrieval = Raise e ∨
       ∃ creds, world h retrieval = Return creds ∧
                world (h ++ [retrieval])%list
                  (gmail_put
                     ("https://gmail.googleapis.com/gmail/v1/users/"
                        +:+ receiver.employee_id m
                        +:+ "/settings/sendAs/" +:+ receiver.employee_id m)
                     ("Bearer " +:+ token creds) (receiver.employee_id m)
                     (receiver.signature m))
                = Raise e) :
  let out :=
    receiver.receive_pubsub_message SHARED_DRIVE_ID SHARED_DRIVE_FOLDER_ID
       PROJECT_ID SECRET_NAME world decode
      message_data h in
  out.1 = Raise {| exc_class := HTTPException 400;
                   exc_text := "Invalid JSON in message" |} ∧
  Forall (λ r, match r with
               | files_list _ _ _ | files_create _ _ _ _ _ | files_update _ _ _ => False
               | _ => True
               end) (drop (length h) out.2).
Proof.
  cbv zeta in *. unfold receiver.receive_pubsub_message, try_except, io_bind.
  rewrite Hdecode, update_signature_unfold. cbv zeta.
  destruct Hraised as [-> | (creds & -> & ->)]; rewrite Hclass; cbn [io_raise fst snd];
    (split; [done |]); rewrite drop_app_length; repeat constructor.
Qed.

End Endpoint.

(** Every request to the drive ends the interpreter; the answer is
    "success". *)
Lemma X19_drive_failure_is_no_failure_witness :
  (receiver.receive_pubsub_message "drive" "folder" "project" "secret"
     drive_down decoded "Hi" []).1
  = Return {| receiver.status := "success";
              receiver.response_employee_id := "ana@kaiser-x.com" |}.
Proof.
  apply (X19_drive_failure_is_no_failure "drive" "folder" "project" "secret" drive_down decoded "Hi" []
           {| receiver.employee_id := "ana@kaiser-x.com"; receiver.signature := "Hi" |}
           {| token := "t0" |}); reflexivity.
Defined.

(** The secret of the service account is not JSON; the message is. *)
Lemma X20_invalid_json_is_not_always_the_message_witness :
  (receiver.receive_pubsub_message "drive" "folder" "project" "secret"
     broken_secret decoded "Hi" []).1
  = Raise {| exc_class := HTTPException 400; exc_text := "Invalid JSON in message" |}.
Proof.
  apply (X20_invalid_json_is_not_always_the_message "drive" "folder" "project" "secret"
           broken_secret decoded "Hi" []
           {| receiver.employee_id := "ana@kaiser-x.com"; receiver.signature := "Hi" |}
           {| exc_class := JSONDecodeError; exc_text := "Expecting value" |}).
  - reflexivity.
  - reflexivity.
  - left. reflexivity.
Defined.
